(** * Telegram channel downloader: the ingestion pipeline

    A shallow embedding of [telegram_channel_downloader.py]
    (class [TelegramChannelDownloader]) and the properties of its
    filename sanitizer, media routing, rate-limit handler and
    ingestion loop.

    Python [str] values are modelled by [string], Python [int] message
    ids by [Z], the counters of [self.stats] by [nat].  Effectful
    methods live in a state-and-exception monad over a [World] that holds
    the counters, the run's record list, the scripted answers of the
    remote side and a chronological trace of every effect. *)

From Stdlib Require Import String Ascii List Bool Arith ZArith Lia.
From Stdlib Require Import Decimal DecimalString.
Import ListNotations.

Local Open Scope list_scope.
Local Open Scope string_scope.

(** ** Python string operations used by the program *)

Module PyStr.

(** [s.replace(old, new)] for one-character [old] and [new]. *)
Fixpoint replace (old new : ascii) (s : string) : string :=
  match s with
  | EmptyString => EmptyString
  | String c s' =>
      String (if Ascii.eqb c old then new else c) (replace old new s')
  end.

(** [s[:n]] *)
Fixpoint take (n : nat) (s : string) : string :=
  match n, s with
  | S n', String c s' => String c (take n' s')
  | _, _ => EmptyString
  end.

(** [s[n:]] *)
Fixpoint drop (n : nat) (s : string) : string :=
  match n, s with
  | S n', String _ s' => drop n' s'
  | _, _ => s
  end.

(** [c in s] for a one-character [c]. *)
Fixpoint has_char (c : ascii) (s : string) : bool :=
  match s with
  | EmptyString => false
  | String c' s' => Ascii.eqb c' c || has_char c s'
  end.

(** [s.startswith(p)] *)
Definition startswith (s p : string) : bool := String.prefix p s.

(** [sub in s] *)
Fixpoint contains (sub s : string) : bool :=
  String.prefix sub s ||
  match s with
  | EmptyString => false
  | String _ s' => contains sub s'
  end.

(** [s.split(sep)] for a one-character [sep]; never empty. *)
Fixpoint split (sep : ascii) (s : string) : list string :=
  match s with
  | EmptyString => [EmptyString]
  | String c s' =>
      if Ascii.eqb c sep then EmptyString :: split sep s'
      else match split sep s' with
           | piece :: rest => String c piece :: rest
           | [] => [String c EmptyString]
           end
  end.

(** [pieces[-1]] of a list produced by [split]. *)
Definition last_piece (pieces : list string) : string :=
  List.last pieces EmptyString.

(** [str(n)] and [f"{n}"] for an [int]. *)
Definition of_int (n : Z) : string := NilZero.string_of_int (Z.to_int n).

(** The characters of a [str], in order ([for char in s]). *)
Definition chars (s : string) : list ascii := list_ascii_of_string s.

End PyStr.

(** ** [sanitize_filename] (lines 84-89) *)

(** The double-quote character, the fourth of [invalid_chars]. *)
Definition dquote : ascii := Ascii.ascii_of_nat 34.

Definition invalid_chars : string := "<>:" ++ String dquote "/\|?*".

Definition sanitize_filename (filename : string) : string :=
  let filename :=
    fold_left (fun filename char => PyStr.replace char "_" filename)
              (PyStr.chars invalid_chars) filename in
  PyStr.take 255 filename.

(** ** [pathlib.Path] (pure POSIX flavour)

    A path is its anchor and its components.  Parsing a segment splits it
    on the separator and drops empty and single-dot components; two-dot
    components are kept, as pathlib keeps them. *)

Record Path := mkPath { root : bool; parts : list string }.

Definition keep_part (p : string) : bool :=
  negb (String.eqb p "" || String.eqb p ".").

Definition parse_parts (s : string) : list string :=
  filter keep_part (PyStr.split "/" s).

(** [Path(s)] *)
Definition path_of_string (s : string) : Path :=
  mkPath (PyStr.startswith s "/") (parse_parts s).

(** [p / seg]: an absolute segment replaces what is on its left. *)
Definition joinpath (p : Path) (seg : string) : Path :=
  if PyStr.startswith seg "/" then path_of_string seg
  else mkPath (root p) (parts p ++ parse_parts seg).

Notation "p // seg" := (joinpath p seg) (at level 40, left associativity).

(** [str(p)] *)
Definition path_str (p : Path) : string :=
  match root p, parts p with
  | false, [] => "."
  | r, ps => (if r then "/" else "") ++ String.concat "/" ps
  end.

(** [strip_prefix pre l] is what follows [pre] in [l], when [l] starts
    with [pre]. *)
Fixpoint strip_prefix (pre l : list string) : option (list string) :=
  match pre, l with
  | [], _ => Some l
  | x :: pre', y :: l' =>
      if String.eqb x y then strip_prefix pre' l' else None
  | _ :: _, [] => None
  end.

(** [lies_under dir p]: [p] is [dir] followed by at least one more
    component, none of which climbs back with two dots. *)
Definition lies_under (dir p : Path) : bool :=
  Bool.eqb (root dir) (root p) &&
  match strip_prefix (parts dir) (parts p) with
  | Some (x :: rest) => negb (existsb (String.eqb "..") (x :: rest))
  | _ => false
  end.

(** ** Remote data: messages and their media descriptors *)

(** An element of [doc.attributes]; only the filename attribute carries a
    [file_name]. *)
Inductive DocumentAttribute :=
| DocumentAttributeFilename (file_name : string)
| DocumentAttributeOther.

(** [mime_type] is [None] when the document object has no such attribute
    (the [hasattr] guard of line 120). *)
Record Document := mkDocument {
  mime_type : option string;
  attributes : list DocumentAttribute
}.

(** The classes [message.media] is tested against, and every other media
    class (polls, contacts, locations, ...). *)
Inductive MessageMedia :=
| MessageMediaPhoto
| MessageMediaDocument (document : Document)
| MessageMediaWebPage
| MessageMediaOther.

(** A [datetime]: what [str] and [isoformat] print for it. *)
Record datetime := mkDatetime { dt_str : string; dt_isoformat : string }.

(** An item yielded by [iter_messages]; [is_service] tells a
    [MessageService] from a [Message]. *)
Record Message := mkMessage {
  is_service : bool;
  id : Z;
  date : option datetime;
  text : option string;
  media : option MessageMedia;
  views : option Z;
  forwards : option Z
}.

(** The dict built at lines 214-221. *)
Record MessageRecord := mkRecord {
  rec_id : Z;
  rec_date : option string;
  rec_text : string;
  rec_media_path : option string;
  rec_views : option Z;
  rec_forwards : option Z
}.

(** ** Exceptions, counters, effects *)

(** The exceptions of class [Exception] that occur.  Interrupts
    ([KeyboardInterrupt], [asyncio.CancelledError]), which no
    [except Exception] clause catches, are outside this model. *)
Inductive Exn :=
| FloodWaitError (seconds : Z)
| AttributeError (name : string)
| TypeError (name : string)
| RecursionError
| OtherError (what : string).

(** The keys of [self.stats]. *)
Inductive StatKey := Messages | Photos | Videos | Documents | Audio | Errors.

Record Stats := mkStats {
  messages : nat;
  photos : nat;
  videos : nat;
  documents : nat;
  audio : nat;
  errors : nat
}.

(** [self.stats] as set by [__init__] (lines 58-65). *)
Definition initial_stats : Stats := mkStats 0 0 0 0 0 0.

Definition stat (k : StatKey) (s : Stats) : nat :=
  match k with
  | Messages => messages s
  | Photos => photos s
  | Videos => videos s
  | Documents => documents s
  | Audio => audio s
  | Errors => errors s
  end.

(** [stats[k] += 1] *)
Definition bump (k : StatKey) (s : Stats) : Stats :=
  match k with
  | Messages => mkStats (S (messages s)) (photos s) (videos s) (documents s) (audio s) (errors s)
  | Photos => mkStats (messages s) (S (photos s)) (videos s) (documents s) (audio s) (errors s)
  | Videos => mkStats (messages s) (photos s) (S (videos s)) (documents s) (audio s) (errors s)
  | Documents => mkStats (messages s) (photos s) (videos s) (S (documents s)) (audio s) (errors s)
  | Audio => mkStats (messages s) (photos s) (videos s) (documents s) (S (audio s)) (errors s)
  | Errors => mkStats (messages s) (photos s) (videos s) (documents s) (audio s) (S (errors s))
  end.

(** What the remote side answers to one [client.download_media] call:
    success, a rate limit, or a failure of class [Exception].  An
    interrupt of the awaited call is outside this model. *)
Inductive FetchOutcome :=
| Fetched
| RateLimited (seconds : Z)
| Failed (what : string).

Inductive LogLine :=
| LogConnected
| LogFetching (channel_username : string)
| LogCouldNotFind (channel_username : string) (e : Exn)
| LogSavingTo (base_dir : string)
| LogStarting
| LogProgress (n : nat)
| LogCompleted (s : Stats) (base_dir : string)
| LogRateLimited (seconds : Z)
| LogMediaError (message_id : Z) (e : Exn)
| LogChannelError (e : Exn).

Inductive Level := Info | Warning | Error.

(** Every effect of the program, in the order it happens. *)
Inductive Event :=
| EvConnect
| EvDisconnect
| EvGetEntity (channel_username : string)
| EvLog (level : Level) (line : LogLine)
| EvIncr (k : StatKey)
| EvFetch (message_id : Z) (file_path : string)
| EvSleep (seconds : Z)
| EvMkdir (dir : string)
| EvWrite (file : string) (lines : list string)
| EvAppend (file : string) (lines : list string)
| EvRecord (r : MessageRecord)
| EvJsonDump (file : string) (records : list MessageRecord).

(** The state a run works on: the counters, the list [messages_data],
    the answers the remote side will give to the coming fetch calls (an
    exhausted script answers [Fetched]) and the trace of effects so far. *)
Record World := mkWorld {
  stats : Stats;
  messages_data : list MessageRecord;
  fetch_script : list FetchOutcome;
  trace : list Event
}.

Definition initial_world (script : list FetchOutcome) : World :=
  mkWorld initial_stats [] script [].

(** ** The state-and-exception monad *)

Inductive Result (A : Type) :=
| Ok (a : A)
| Raise (e : Exn).
Arguments Ok {A} a.
Arguments Raise {A} e.

Definition M (A : Type) : Type := World -> Result A * World.

Definition ret {A} (a : A) : M A := fun w => (Ok a, w).

Definition raise {A} (e : Exn) : M A := fun w => (Raise e, w).

Definition bind {A B} (m : M A) (k : A -> M B) : M B :=
  fun w =>
    match m w with
    | (Ok a, w') => k a w'
    | (Raise e, w') => (Raise e, w')
    end.

Notation "x <- m ;; k" := (bind m (fun x => k))
  (at level 61, m at next level, right associativity).
Notation "m ;; k" := (bind m (fun _ => k))
  (at level 61, right associativity).

(** [try: m except Exception as e: h e]; what [h] raises propagates. *)
Definition try_except {A} (m : M A) (h : Exn -> M A) : M A :=
  fun w =>
    match m w with
    | (Ok a, w') => (Ok a, w')
    | (Raise e, w') => h e w'
    end.

(** [try: m finally: f] *)
Definition finally {A} (m : M A) (f : M unit) : M A :=
  fun w =>
    match m w with
    | (r, w') =>
        match f w' with
        | (Ok _, w'') => (r, w'')
        | (Raise e, w'') => (Raise e, w'')
        end
    end.

Definition emit (e : Event) : M unit :=
  fun w => (Ok tt, mkWorld (stats w) (messages_data w) (fetch_script w)
                           (trace w ++ [e])).

Definition log (level : Level) (line : LogLine) : M unit :=
  emit (EvLog level line).

(** [self.stats[k] += 1] *)
Definition incr (k : StatKey) : M unit :=
  fun w => (Ok tt, mkWorld (bump k (stats w)) (messages_data w)
                           (fetch_script w) (trace w ++ [EvIncr k])).

Definition get_stats : M Stats := fun w => (Ok (stats w), w).

(** [messages_data = []] *)
Definition reset_records : M unit :=
  fun w => (Ok tt, mkWorld (stats w) [] (fetch_script w) (trace w)).

(** [messages_data.append(r)] *)
Definition append_record (r : MessageRecord) : M unit :=
  fun w => (Ok tt, mkWorld (stats w) (messages_data w ++ [r])
                           (fetch_script w) (trace w ++ [EvRecord r])).

Definition get_records : M (list MessageRecord) :=
  fun w => (Ok (messages_data w), w).

(** [await self.client.download_media(message, file_path)] *)
Definition client_download_media (message : Message) (file_path : Path)
  : M unit :=
  fun w =>
    let tr := (trace w ++ [EvFetch (id message) (path_str file_path)])%list in
    match fetch_script w with
    | [] => (Ok tt, mkWorld (stats w) (messages_data w) [] tr)
    | Fetched :: rest =>
        (Ok tt, mkWorld (stats w) (messages_data w) rest tr)
    | RateLimited seconds :: rest =>
        (Raise (FloodWaitError seconds),
         mkWorld (stats w) (messages_data w) rest tr)
    | Failed what :: rest =>
        (Raise (OtherError what),
         mkWorld (stats w) (messages_data w) rest tr)
    end.

(** [await asyncio.sleep(seconds)] *)
Definition sleep (seconds : Z) : M unit := emit (EvSleep seconds).

(** ** The remote side *)

(** A resolved channel entity: its title and the messages
    [iter_messages] yields for it, in iteration order. *)
Record Channel := mkChannel {
  title : option string;
  history : list Message
}.

(** What a run is handed: whether [connect] goes through, how identifiers
    resolve, and the clock. *)
Record Transport := mkTransport {
  connect_outcome : option Exn;
  get_entity : string -> Result Channel;
  now_strftime : string;
  now_str : string
}.

(** [self.client.iter_messages(channel, limit=limit)] *)
Definition iter_messages (channel : Channel) (limit : option nat)
  : list Message :=
  match limit with
  | None => history channel
  | Some n => firstn n (history channel)
  end.

(** ** Attribute lookup on [self]

    The methods the class body binds (lines 44-159), under the names it
    binds them to.  [self.<name>] for any other name raises
    [AttributeError]; the data attributes set by [__init__] ([api_id],
    [api_hash], [phone], [client], [stats]) are not callable and are
    modelled by [Transport] and [World]. *)

Inductive Method :=
| MInit
| MConnect
| MSanitizeFilename
| MCreateDownloadDirectory
| MDownloadMedia
| MDownloadChannel.

Definition class_namespace : list (string * Method) :=
  [ ("__init__", MInit);
    ("connect", MConnect);
    ("sanitize_filename", MSanitizeFilename);
    ("create_download_directory", MCreateDownloadDirectory);
    ("download_media", MDownloadMedia);
    ("download_channel", MDownloadChannel) ].

Fixpoint lookup (name : string) (ns : list (string * Method))
  : option Method :=
  match ns with
  | [] => None
  | (n, m) :: rest => if String.eqb n name then Some m else lookup name rest
  end.

(** [self.<name>] in call position. *)
Definition getattr_method (name : string) : M Method :=
  match lookup name class_namespace with
  | Some m => ret m
  | None => raise (AttributeError name)
  end.

(** ** [connect] (lines 67-82)

    The login dialogue is the transport's business; only its outcome is
    modelled, and only outcomes of class [Exception]: an interrupt at a
    prompt is outside this model. *)
Definition connect (T : Transport) : M unit :=
  emit EvConnect ;;
  match connect_outcome T with
  | Some e => raise e
  | None => log Info LogConnected
  end.

(** ** [create_download_directory] (lines 91-104) *)

Definition create_download_directory (T : Transport) (channel_name : string)
  : M Path :=
  let timestamp := now_strftime T in
  safe_channel_name <-
    (m <- getattr_method "_sanitize_filename" ;;
     match m with
     | MSanitizeFilename => ret (sanitize_filename channel_name)
     | _ => raise (TypeError "_sanitize_filename")
     end) ;;
  let base_dir :=
    path_of_string ("downloads/" ++ safe_channel_name ++ "_" ++ timestamp) in
  emit (EvMkdir (path_str (base_dir // "photos"))) ;;
  emit (EvMkdir (path_str (base_dir // "videos"))) ;;
  emit (EvMkdir (path_str (base_dir // "documents"))) ;;
  emit (EvMkdir (path_str (base_dir // "audio"))) ;;
  emit (EvMkdir (path_str (base_dir // "messages"))) ;;
  ret base_dir.

(** ** [download_media] (lines 106-157) *)

(** The category a document's mime-type selects (lines 122-130): the
    counter key and the subdirectory name. *)
Definition document_category (mime : string) : StatKey :=
  if PyStr.contains "video" mime then Videos
  else if PyStr.contains "audio" mime || PyStr.contains "ogg" mime then Audio
  else Documents.

Definition subdir_name (k : StatKey) : string :=
  match k with
  | Photos => "photos"
  | Videos => "videos"
  | Audio => "audio"
  | _ => "documents"
  end.

(** The loop of lines 133-137: the first attribute with a [file_name]
    decides, and its name goes through [self._sanitize_filename]. *)
Fixpoint scan_attributes (attrs : list DocumentAttribute)
  : M (option string) :=
  match attrs with
  | [] => ret None
  | DocumentAttributeFilename file_name :: _ =>
      m <- getattr_method "_sanitize_filename" ;;
      match m with
      | MSanitizeFilename => ret (Some (sanitize_filename file_name))
      | _ => raise (TypeError "_sanitize_filename")
      end
  | DocumentAttributeOther :: rest => scan_attributes rest
  end.

(** Lines 140-141. *)
Definition synthesized_filename (message_id : Z) (mime : string) : string :=
  let ext :=
    if PyStr.has_char "/" mime
    then PyStr.last_piece (PyStr.split "/" mime)
    else "bin" in
  "file_" ++ PyStr.of_int message_id ++ "." ++ ext.

(** [not filename] *)
Definition falsy (filename : option string) : bool :=
  match filename with
  | None => true
  | Some s => String.eqb s ""
  end.

(** The body of the [try] (lines 109-147). *)
Definition download_media_try (message : Message) (base_dir : Path)
  : M (option string) :=
  match media message with
  | Some MessageMediaPhoto =>
      let file_path :=
        base_dir // "photos" // ("photo_" ++ PyStr.of_int (id message) ++ ".jpg") in
      client_download_media message file_path ;;
      incr Photos ;;
      ret (Some (path_str file_path))
  | Some (MessageMediaDocument doc) =>
      let mime := match mime_type doc with Some m => m | None => "" end in
      let category := document_category mime in
      let subdir := subdir_name category in
      incr category ;;
      filename <- scan_attributes (attributes doc) ;;
      let filename :=
        if falsy filename then synthesized_filename (id message) mime
        else match filename with Some s => s | None => "" end in
      let file_path := base_dir // subdir // filename in
      client_download_media message file_path ;;
      ret (Some (path_str file_path))
  | _ => ret None
  end.

(** The whole method.  [depth] is the number of nested Python calls still
    allowed; a call beyond it raises [RecursionError]. *)
Fixpoint download_media (depth : nat) (message : Message) (base_dir : Path)
  : M (option string) :=
  try_except (download_media_try message base_dir)
    (fun e =>
       match e with
       | FloodWaitError seconds =>
           log Warning (LogRateLimited seconds) ;;
           sleep seconds ;;
           m <- getattr_method "_download_media" ;;
           match m, depth with
           | MDownloadMedia, S depth' => download_media depth' message base_dir
           | MDownloadMedia, O => raise RecursionError
           | _, _ => raise (TypeError "_download_media")
           end
       | _ =>
           log Error (LogMediaError (id message) e) ;;
           incr Errors ;;
           ret None
       end).

(** ** [download_channel] (lines 159-259) *)

Definition nl : string := String (Ascii.ascii_of_nat 10) "".

(** [c * n] for a one-character string [c]. *)
Fixpoint repeat_char (c : ascii) (n : nat) : string :=
  match n with
  | O => ""
  | S n' => String c (repeat_char c n')
  end.

(** [s or default] and the truth value of an optional string. *)
Definition or_else (s : option string) (default : string) : string :=
  match s with
  | Some (String c r) => String c r
  | _ => default
  end.

Definition truthy (s : option string) : bool :=
  match s with
  | Some (String _ _) => true
  | _ => false
  end.

(** Lines 214-221. *)
Definition message_data (message : Message) (media_path : option string)
  : MessageRecord :=
  mkRecord (id message)
           (match date message with
            | Some d => Some (dt_isoformat d)
            | None => None
            end)
           (or_else (text message) "")
           media_path
           (views message)
           (forwards message).

(** What lines 225-232 write for one message. *)
Definition transcript_block (message : Message) (media_path : option string)
  : list string :=
  [ ("Message ID: " ++ PyStr.of_int (id message) ++ nl)%string;
    ("Date: " ++ match date message with
                 | Some d => dt_str d
                 | None => "None"
                 end ++ nl)%string ]
  ++ (if truthy (text message)
      then [("Text: " ++ or_else (text message) "" ++ nl)%string] else [])
  ++ (if truthy media_path
      then [("Media: " ++ or_else media_path "" ++ nl)%string] else [])
  ++ [ (repeat_char "-" 80 ++ nl ++ nl)%string ].

(** [message.media and not isinstance(message.media, MessageMediaWebPage)] *)
Definition has_real_media (message : Message) : bool :=
  match media message with
  | None => false
  | Some MessageMediaWebPage => false
  | Some _ => true
  end.

(** One turn of the [async for] (lines 202-236). *)
Definition process_message (depth : nat) (message : Message)
  (base_dir messages_file : Path) : M unit :=
  if is_service message then ret tt
  else
    incr Messages ;;
    media_path <-
      (if has_real_media message
       then m <- getattr_method "_download_media" ;;
            match m with
            | MDownloadMedia => download_media depth message base_dir
            | _ => raise (TypeError "_download_media")
            end
       else ret None) ;;
    append_record (message_data message media_path) ;;
    emit (EvAppend (path_str messages_file)
                   (transcript_block message media_path)) ;;
    s <- get_stats ;;
    if Nat.eqb (Nat.modulo (messages s) 100) 0
    then log Info (LogProgress (messages s))
    else ret tt.

(** The [async for] over the messages the transport yields. *)
Fixpoint ingest (depth : nat) (items : list Message)
  (base_dir messages_file : Path) : M unit :=
  match items with
  | [] => ret tt
  | message :: rest =>
      process_message depth message base_dir messages_file ;;
      ingest depth rest base_dir messages_file
  end.

(** Lines 171-172. *)
Definition clean_username (channel_username : string) : string :=
  if PyStr.startswith channel_username "@"
  then PyStr.drop 1 channel_username
  else channel_username.

(** [await self.client.get_entity(channel_username)] *)
Definition client_get_entity (T : Transport) (channel_username : string)
  : M Channel :=
  emit (EvGetEntity channel_username) ;;
  match get_entity T channel_username with
  | Ok channel => ret channel
  | Raise e => raise e
  end.

(** The statements after a successful resolution (lines 183-252). *)
Definition download_resolved (depth : nat) (T : Transport)
  (channel : Channel) (channel_username : string) (limit : option nat)
  : M unit :=
  let shown := or_else (title channel) channel_username in
  base_dir <-
    (m <- getattr_method "_create_download_directory" ;;
     match m with
     | MCreateDownloadDirectory => create_download_directory T shown
     | _ => raise (TypeError "_create_download_directory")
     end) ;;
  log Info (LogSavingTo (path_str base_dir)) ;;
  let messages_file := base_dir // "messages" // "messages.txt" in
  let messages_json_file := base_dir // "messages" // "messages.json" in
  reset_records ;;
  emit (EvWrite (path_str messages_file)
          [ ("Channel: " ++ shown ++ nl)%string;
            ("Download started: " ++ now_str T ++ nl)%string;
            (repeat_char "=" 80 ++ nl ++ nl)%string ]) ;;
  log Info LogStarting ;;
  ingest depth (iter_messages channel limit) base_dir messages_file ;;
  records <- get_records ;;
  emit (EvJsonDump (path_str messages_json_file) records) ;;
  s <- get_stats ;;
  log Info (LogCompleted s (path_str base_dir)).

Definition download_channel (depth : nat) (T : Transport)
  (channel_username : string) (limit : option nat) : M unit :=
  finally
    (try_except
       (connect T ;;
        let channel_username := clean_username channel_username in
        log Info (LogFetching channel_username) ;;
        resolved <-
          try_except
            (channel <- client_get_entity T channel_username ;;
             ret (Some channel))
            (fun e =>
               log Error (LogCouldNotFind channel_username e) ;;
               ret None) ;;
        match resolved with
        | None => ret tt
        | Some channel =>
            download_resolved depth T channel channel_username limit
        end)
       (fun e => log Error (LogChannelError e) ;; raise e))
    (emit EvDisconnect).

(** ** Worked inputs *)

Definition text_message (n : Z) (body : string) : Message :=
  mkMessage false n None (Some body) None None None.

Definition media_message (n : Z) (m : MessageMedia) : Message :=
  mkMessage false n None None (Some m) None None.

Definition service_message (n : Z) : Message :=
  mkMessage true n None None None None None.

Definition sample_dir : Path := path_of_string "downloads/chan_20240101_120000".

Definition three_texts : list Message :=
  [ text_message 3 "third"; text_message 2 "second"; text_message 1 "first" ].

(** A transport whose only channel, [chan], holds [items]. *)
Definition sample_transport (items : list Message) : Transport :=
  mkTransport None
    (fun name =>
       if String.eqb name "chan" then Ok (mkChannel (Some "chan") items)
       else Raise (OtherError "no such entity"))
    "20240101_120000" "2024-01-01 12:00:00".

Definition sample_file : Path := sample_dir // "messages" // "messages.txt".

(** The loop over one text-only message, and over one photo. *)
Definition one_text_run : Result unit * World :=
  ingest 0 [text_message 1 "first"] sample_dir sample_file (initial_world []).

Definition one_photo_run : Result unit * World :=
  ingest 0 [media_message 7 MessageMediaPhoto] sample_dir sample_file
         (initial_world []).

Definition report_pdf : MessageMedia :=
  MessageMediaDocument
    (mkDocument (Some "application/pdf")
                [DocumentAttributeOther; DocumentAttributeFilename "report.pdf"]).

Definition video_mp4 : MessageMedia :=
  MessageMediaDocument (mkDocument (Some "video/mp4") [DocumentAttributeOther]).

(** ** Vocabulary of the statements *)

(** Character-wise image of a string. *)
Fixpoint smap (f : ascii -> ascii) (s : string) : string :=
  match s with
  | EmptyString => EmptyString
  | String c s' => String (f c) (smap f s')
  end.

(** What the nine replacements of [sanitize_filename] do to one
    character. *)
Definition scrub (c : ascii) : ascii :=
  fold_left (fun c bad => if Ascii.eqb c bad then "_"%char else c)
            (PyStr.chars invalid_chars) c.

(** The name a photo is stored under (line 111). *)
Definition photo_filename (message_id : Z) : string :=
  "photo_" ++ PyStr.of_int message_id ++ ".jpg".

(** The mime-type line 120 reads off a document. *)
Definition mime_of (doc : Document) : string :=
  match mime_type doc with
  | Some m => m
  | None => ""
  end.

(** The category of a media descriptor: the counter it is counted under
    and the subdirectory it is routed to; none for link previews and for
    media the program does not fetch. *)
Definition media_category (m : MessageMedia) : option StatKey :=
  match m with
  | MessageMediaPhoto => Some Photos
  | MessageMediaDocument doc => Some (document_category (mime_of doc))
  | _ => None
  end.

(** The answer the remote side gives to the next fetch call. *)
Definition first_outcome (w : World) : FetchOutcome :=
  match fetch_script w with
  | [] => Fetched
  | o :: _ => o
  end.

(** Whether some attribute of the list carries a [file_name]. *)
Definition declares_filename (attrs : list DocumentAttribute) : bool :=
  existsb (fun a => match a with
                    | DocumentAttributeFilename _ => true
                    | DocumentAttributeOther => false
                    end) attrs.

(** The world after further effects: counters [s], script [script],
    trace extended by [evs]. *)
Definition after (w : World) (s : Stats) (script : list FetchOutcome)
  (evs : list Event) : World :=
  mkWorld s (messages_data w) script (trace w ++ evs).

(** The effects that happened between world [w] and a later world [w']. *)
Definition new_events (w w' : World) : list Event :=
  skipn (length (trace w)) (trace w').

(** Counting, in a stretch of the trace, the increments of the
    [messages] counter and the records appended. *)
Definition is_count (e : Event) : bool :=
  match e with
  | EvIncr Messages => true
  | _ => false
  end.

Definition is_record (e : Event) : bool :=
  match e with
  | EvRecord _ => true
  | _ => false
  end.

Definition counted (evs : list Event) : nat := length (filter is_count evs).

Definition recorded (evs : list Event) : nat := length (filter is_record evs).

Definition is_fetch (e : Event) : bool :=
  match e with
  | EvFetch _ _ => true
  | _ => false
  end.

Definition counted_fetches (evs : list Event) : nat :=
  length (filter is_fetch evs).

(** Messages that are not service notices. *)
Definition user_content (message : Message) : bool :=
  negb (is_service message).

(** The records appended in a stretch of the trace, in order. *)
Fixpoint records_of (evs : list Event) : list MessageRecord :=
  match evs with
  | [] => []
  | EvRecord r :: rest => r :: records_of rest
  | _ :: rest => records_of rest
  end.

(** The counter and the record list move in step over a stretch of the
    trace: after each of its effects as many increments of [messages] as
    appended records have happened. *)
Definition in_step (evs : list Event) : Prop :=
  forall n, counted (firstn n evs) = recorded (firstn n evs).

(** The progress line of lines 235-236, when the counter stands at [n]. *)
Definition progress_events (n : nat) : list Event :=
  if Nat.eqb (Nat.modulo n 100) 0 then [EvLog Info (LogProgress n)] else [].

(** The effects of one turn of the loop for a message without real
    media, when the counter stood at [n] before. *)
Definition plain_turn (n : nat) (message : Message) (messages_file : Path)
  : list Event :=
  [ EvIncr Messages;
    EvRecord (message_data message None);
    EvAppend (path_str messages_file) (transcript_block message None) ]
  ++ progress_events (S n).

(** ** [connect] in detail (lines 67-82)

    The login dialogue itself, over a client whose answers are given.
    The exception class [SessionPasswordNeededError] is the answer
    [PasswordNeeded] of the first sign-in. *)

Inductive SignIn :=
| SignedIn
| PasswordNeeded
| SignInFailed (e : Exn).

Record AuthClient := mkAuthClient {
  connect_fails : option Exn;
  is_user_authorized : bool;
  send_code_fails : option Exn;
  sign_in_code : string -> SignIn;
  sign_in_password : string -> option Exn
}.

Inductive LoginEvent :=
| LoginConnect
| LoginLogFirstTime
| LoginSendCode (phone : string)
| LoginAskCode
| LoginSignInCode (phone code : string)
| LoginAskPassword
| LoginSignInPassword (password : string)
| LoginLogConnected.

(** [code] and [password] are what the user types when asked.  The result
    is what happened, in order, and the exception that escaped, if any. *)
Definition connect_dialogue (client : AuthClient)
  (phone code password : string) : list LoginEvent * option Exn :=
  match connect_fails client with
  | Some e => ([LoginConnect], Some e)
  | None =>
      if is_user_authorized client
      then ([LoginConnect; LoginLogConnected], None)
      else
        match send_code_fails client with
        | Some e =>
            ([LoginConnect; LoginLogFirstTime; LoginSendCode phone], Some e)
        | None =>
            let asked :=
              [LoginConnect; LoginLogFirstTime; LoginSendCode phone;
               LoginAskCode; LoginSignInCode phone code] in
            match sign_in_code client code with
            | SignedIn => ((asked ++ [LoginLogConnected])%list, None)
            | SignInFailed e => (asked, Some e)
            | PasswordNeeded =>
                match sign_in_password client password with
                | None =>
                    ((asked ++ [LoginAskPassword;
                                LoginSignInPassword password;
                                LoginLogConnected])%list, None)
                | Some e =>
                    ((asked ++ [LoginAskPassword;
                                LoginSignInPassword password])%list, Some e)
                end
            end
        end
  end.

(** ** [main] (lines 262-306) *)

(** The five answers of lines 275-280, each already stripped. *)
Record Answers := mkAnswers {
  ans_api_id : string;
  ans_api_hash : string;
  ans_phone : string;
  ans_channel : string;
  ans_limit : string
}.

(** What [main] prints, and the one line it logs. *)
Inductive Console :=
| PrintBanner
| PrintFieldsRequired
| PrintInvalidInput
| LogFatal (e : Exn).

(** The outcome of lines 274-295. *)
Inductive Parsed :=
| Start (api_id : Z) (api_hash phone channel : string) (limit : option Z)
| Rejected (c : Console).

(** The truth value of a [str]. *)
Definition nonempty (s : string) : bool := negb (String.eqb s "").

(** Lines 274-292.  [int] is Python's [int] on a [str], with [None] for
    [ValueError]: the limit is read first, then the four fields are
    checked, then the API id is read. *)
Definition read_inputs (int : string -> option Z) (a : Answers) : Parsed :=
  match (if nonempty (ans_limit a)
         then option_map Some (int (ans_limit a))
         else Some None) with
  | None => Rejected PrintInvalidInput
  | Some limit =>
      if forallb nonempty
           [ans_api_id a; ans_api_hash a; ans_phone a; ans_channel a]
      then match int (ans_api_id a) with
           | Some api_id =>
               Start api_id (ans_api_hash a) (ans_phone a) (ans_channel a)
                     limit
           | None => Rejected PrintInvalidInput
           end
      else Rejected PrintFieldsRequired
  end.

(** The whole of [main].  [client_for] is the remote side as the given
    credentials see it, [script] its answers to fetch calls; an integer
    limit allows that many messages, none when it is negative.  The
    result is the console output and the world the run left, when a run
    was started. *)
Definition main (int : string -> option Z)
  (client_for : Z -> string -> string -> Transport)
  (depth : nat) (script : list FetchOutcome) (a : Answers)
  : list Console * option World :=
  match read_inputs int a with
  | Rejected c => ([PrintBanner; c], None)
  | Start api_id api_hash phone channel limit =>
      match download_channel depth (client_for api_id api_hash phone)
                             channel (option_map Z.to_nat limit)
                             (initial_world script) with
      | (Ok _, w) => ([PrintBanner], Some w)
      | (Raise e, w) => ([PrintBanner; LogFatal e], Some w)
      end
  end.

(** A reader of plain decimal numerals, for worked inputs. *)
Definition decimal (s : string) : option Z :=
  option_map Z.of_int (NilZero.int_of_string s).

(** ** Further worked inputs *)


(** Documents without a declared filename: a PDF and a voice note. *)
Definition plain_pdf : MessageMedia :=
  MessageMediaDocument (mkDocument (Some "application/pdf") []).

Definition voice_note : MessageMedia :=
  MessageMediaDocument
    (mkDocument (Some "application/ogg") [DocumentAttributeOther]).

(** ** Further vocabulary *)

(** The characters [sanitize_filename] replaces. *)
Definition is_invalid (c : ascii) : bool :=
  existsb (Ascii.eqb c) (PyStr.chars invalid_chars).

(** A message the loop hands to [self._download_media]. *)
Definition fetchable (message : Message) : bool :=
  user_content message && has_real_media message.

(** The items before the first one the loop tries to fetch. *)
Fixpoint until_fetchable (items : list Message) : list Message :=
  match items with
  | [] => []
  | message :: rest =>
      if fetchable message then [] else message :: until_fetchable rest
  end.

(** Effects that change the counters, the remote side's script or the
    disk. *)
Definition is_output (e : Event) : bool :=
  match e with
  | EvIncr _ | EvFetch _ _ | EvMkdir _ | EvWrite _ _ | EvAppend _ _
  | EvRecord _ | EvJsonDump _ _ => true
  | _ => false
  end.

Definition is_progress (e : Event) : bool :=
  match e with
  | EvLog Info (LogProgress _) => true
  | _ => false
  end.

Definition progress_lines (evs : list Event) : nat :=
  length (filter is_progress evs).

(** The sum of the six counters. *)
Definition total (s : Stats) : nat :=
  messages s + photos s + videos s + documents s + audio s + errors s.

(** * Properties *)

(** ** Strings *)

Section StringFacts.

Lemma smap_id (s : string) : smap (fun c => c) s = s.
Proof. induction s as [|c s IH]; simpl; [reflexivity | now rewrite IH]. Qed.

Lemma smap_replace (f : ascii -> ascii) (old new : ascii) (s : string) :
  smap f (PyStr.replace old new s)
  = smap (fun c => f (if Ascii.eqb c old then new else c)) s.
Proof. induction s as [|c s IH]; simpl; [reflexivity | now rewrite IH]. Qed.

Lemma smap_smap (f g : ascii -> ascii) (s : string) :
  smap f (smap g s) = smap (fun c => f (g c)) s.
Proof. induction s as [|c s IH]; simpl; [reflexivity | now rewrite IH]. Qed.

Lemma smap_ext (f g : ascii -> ascii) (s : string) :
  (forall c, f c = g c) -> smap f s = smap g s.
Proof.
  intros E; induction s as [|c s IH]; simpl; [reflexivity|].
  now rewrite E, IH.
Qed.

Lemma smap_take (f : ascii -> ascii) (n : nat) (s : string) :
  smap f (PyStr.take n s) = PyStr.take n (smap f s).
Proof.
  revert s; induction n as [|n IH]; intros [|c s]; simpl; try reflexivity.
  now rewrite IH.
Qed.

Lemma take_take (n : nat) (s : string) :
  PyStr.take n (PyStr.take n s) = PyStr.take n s.
Proof.
  revert s; induction n as [|n IH]; intros [|c s]; simpl; try reflexivity.
  now rewrite IH.
Qed.

Lemma take_length (n : nat) (s : string) :
  String.length (PyStr.take n s) <= n.
Proof.
  revert s; induction n as [|n IH]; intros [|c s]; simpl; try lia.
  specialize (IH s); lia.
Qed.

Lemma has_char_take (x : ascii) (n : nat) (s : string) :
  PyStr.has_char x s = false -> PyStr.has_char x (PyStr.take n s) = false.
Proof.
  revert s; induction n as [|n IH]; intros [|c s]; simpl; try reflexivity.
  intros H; apply orb_false_iff in H as [H1 H2].
  now rewrite H1, IH.
Qed.

Lemma has_char_append (x : ascii) (a b : string) :
  PyStr.has_char x (a ++ b) = PyStr.has_char x a || PyStr.has_char x b.
Proof.
  induction a as [|c a IH]; simpl; [reflexivity|].
  now rewrite IH, orb_assoc.
Qed.

Lemma has_char_smap (x : ascii) (f : ascii -> ascii) (s : string) :
  (forall c, Ascii.eqb (f c) x = false) ->
  PyStr.has_char x (smap f s) = false.
Proof.
  intros H; induction s as [|c s IH]; simpl; [reflexivity|].
  now rewrite H, IH.
Qed.

End StringFacts.

(** ** The sanitizer as a character map *)

Lemma fold_replace_smap (bad : list ascii) (s : string) :
  fold_left (fun filename char => PyStr.replace char "_" filename) bad s
  = smap (fun c => fold_left (fun c b => if Ascii.eqb c b then "_"%char else c)
                             bad c) s.
Proof.
  revert s; induction bad as [|b bad IH]; intros s; simpl.
  - now rewrite smap_id.
  - rewrite IH. apply smap_replace.
Qed.

Lemma sanitize_filename_smap (s : string) :
  sanitize_filename s = PyStr.take 255 (smap scrub s).
Proof. unfold sanitize_filename. now rewrite fold_replace_smap. Qed.

Lemma scrub_scrub (c : ascii) : scrub (scrub c) = scrub c.
Proof. destruct c as [[] [] [] [] [] [] [] []]; reflexivity. Qed.

Lemma scrub_valid (c : ascii) :
  existsb (Ascii.eqb (scrub c)) (PyStr.chars invalid_chars) = false.
Proof. destruct c as [[] [] [] [] [] [] [] []]; reflexivity. Qed.

Lemma scrub_avoids (c x : ascii) :
  In x (PyStr.chars invalid_chars) -> Ascii.eqb (scrub c) x = false.
Proof.
  intros Hin. pose proof (scrub_valid c) as H.
  destruct (Ascii.eqb (scrub c) x) eqn:E; [|reflexivity].
  rewrite <- H. symmetry. apply existsb_exists. now exists x.
Qed.

Example sanitize_filename_sample :
  sanitize_filename "a/b\c:d*e?.txt" = "a_b_c_d_e_.txt".
Proof. reflexivity. Qed.

(** C8 -- [sanitize_filename] is idempotent; its result contains none of
    the nine characters of [invalid_chars] (less-than, greater-than,
    colon, double quote, slash, backslash, bar, question mark, star) and
    is at most 255 characters long. *)
Theorem sanitize_filename_idempotent_clean_bounded (s : string) :
  sanitize_filename (sanitize_filename s) = sanitize_filename s
  /\ (forall c, In c (PyStr.chars invalid_chars) ->
                PyStr.has_char c (sanitize_filename s) = false)
  /\ String.length (sanitize_filename s) <= 255.
Proof.
  rewrite !sanitize_filename_smap. repeat split.
  - rewrite smap_take, take_take, smap_smap.
    f_equal. apply smap_ext, scrub_scrub.
  - intros c Hc. apply has_char_take, has_char_smap.
    intros c'. now apply scrub_avoids.
  - apply take_length.
Qed.

(** ** Splitting, decimal numerals and path components *)

Section Components.

Lemma split_no_sep (sep : ascii) (s : string) :
  PyStr.has_char sep s = false -> PyStr.split sep s = [s].
Proof.
  induction s as [|c s IH]; simpl; [reflexivity|].
  intros H. apply orb_false_iff in H as [Hc Hs].
  rewrite Hc, (IH Hs). reflexivity.
Qed.

Lemma split_not_nil (sep : ascii) (s : string) : PyStr.split sep s <> [].
Proof.
  destruct s as [|c s]; simpl; [discriminate|].
  destruct (Ascii.eqb c sep); [discriminate|].
  destruct (PyStr.split sep s); discriminate.
Qed.

(** Past a separator, the pieces are those of what follows it. *)
Lemma split_at_sep (sep : ascii) (a b : string) :
  exists front, front <> [] /\
    PyStr.split sep (a ++ String sep b) = (front ++ PyStr.split sep b)%list.
Proof.
  induction a as [|c a (front & Hne & IH)]; simpl.
  - rewrite Ascii.eqb_refl. exists [""]. split; [discriminate | reflexivity].
  - rewrite IH. destruct (Ascii.eqb c sep).
    + exists ("" :: front). split; [discriminate | reflexivity].
    + destruct front as [|p front]; [contradiction|].
      exists (String c p :: front). split; [discriminate | reflexivity].
Qed.

Lemma last_piece_after_sep (sep : ascii) (a b : string) :
  PyStr.has_char sep b = false ->
  PyStr.last_piece (PyStr.split sep (a ++ String sep b)) = b.
Proof.
  intros Hb. destruct (split_at_sep sep a b) as (front & _ & ->).
  rewrite (split_no_sep _ _ Hb). unfold PyStr.last_piece.
  apply last_last.
Qed.

Lemma split_pieces_no_sep (sep : ascii) (s piece : string) :
  In piece (PyStr.split sep s) -> PyStr.has_char sep piece = false.
Proof.
  revert piece; induction s as [|c s IH]; simpl; intros piece Hin.
  - destruct Hin as [<-|[]]; reflexivity.
  - destruct (Ascii.eqb c sep) eqn:E.
    + destruct Hin as [<-|Hin]; [reflexivity | now apply IH].
    + destruct (PyStr.split sep s) as [|p rest] eqn:Es.
      * destruct Hin as [<-|[]]. simpl. now rewrite E.
      * destruct Hin as [<-|Hin].
        -- simpl. rewrite E. apply IH. now left.
        -- apply IH. now right.
Qed.

Lemma last_piece_no_sep (sep : ascii) (s : string) :
  PyStr.has_char sep (PyStr.last_piece (PyStr.split sep s)) = false.
Proof.
  apply split_pieces_no_sep with (s := s). unfold PyStr.last_piece.
  pose proof (split_not_nil sep s) as Hne.
  destruct (exists_last Hne) as (front & x & E).
  rewrite E, last_last. apply in_or_app. right. now left.
Qed.

Lemma uint_no_slash (d : Decimal.uint) :
  PyStr.has_char "/" (NilEmpty.string_of_uint d) = false.
Proof. induction d; simpl; auto. Qed.

Lemma of_int_no_slash (n : Z) : PyStr.has_char "/" (PyStr.of_int n) = false.
Proof.
  unfold PyStr.of_int, NilZero.string_of_int.
  destruct (Z.to_int n) as [d|d]; simpl;
    unfold NilZero.string_of_uint; destruct d; simpl;
    auto using uint_no_slash.
Qed.

(** A name without separator that is neither empty nor a single dot
    is one path component. *)
Lemma parse_parts_single (s : string) :
  PyStr.has_char "/" s = false -> keep_part s = true ->
  parse_parts s = [s].
Proof.
  intros Hs Hk. unfold parse_parts. rewrite (split_no_sep _ _ Hs).
  simpl. now rewrite Hk.
Qed.

Lemma startswith_slash (s : string) :
  PyStr.has_char "/" s = false -> PyStr.startswith s "/" = false.
Proof.
  destruct s as [|c s]; [reflexivity|].
  intros H. apply orb_false_iff in H as [Hc _].
  unfold PyStr.startswith. cbn [String.prefix].
  destruct (ascii_dec "/" c) as [<-|Hne]; [discriminate Hc | reflexivity].
Qed.

Lemma joinpath_single (p : Path) (s : string) :
  PyStr.has_char "/" s = false -> keep_part s = true ->
  p // s = mkPath (root p) (parts p ++ [s]).
Proof.
  intros Hs Hk. unfold joinpath.
  now rewrite (startswith_slash _ Hs), (parse_parts_single _ Hs Hk).
Qed.

Lemma strip_prefix_app (pre rest : list string) :
  strip_prefix pre (pre ++ rest) = Some rest.
Proof.
  induction pre as [|x pre IH]; simpl; [reflexivity|].
  now rewrite String.eqb_refl.
Qed.

End Components.

(** ** Closed forms of [download_media] *)

Lemma new_events_after (w : World) (s : Stats) (script : list FetchOutcome)
  (evs : list Event) : new_events w (after w s script evs) = evs.
Proof.
  unfold new_events, after. cbn [trace].
  now rewrite skipn_app, skipn_all, Nat.sub_diag.
Qed.

Lemma new_events_extend (w : World) (s : Stats) (d : list MessageRecord)
  (script : list FetchOutcome) (evs : list Event) :
  new_events w (mkWorld s d script (trace w ++ evs)) = evs.
Proof.
  unfold new_events. cbn [trace].
  now rewrite skipn_app, skipn_all, Nat.sub_diag.
Qed.

Lemma new_events_refl (w : World) : new_events w w = [].
Proof. unfold new_events. apply skipn_all. Qed.

Lemma document_category_cases (mime : string) :
  document_category mime = Videos
  \/ document_category mime = Audio
  \/ document_category mime = Documents.
Proof.
  unfold document_category.
  destruct (PyStr.contains "video" mime); [now left|].
  destruct (PyStr.contains "audio" mime || PyStr.contains "ogg" mime); auto.
Qed.

Ltac norm_trace := repeat rewrite <- app_assoc; cbn [app].

Lemma scan_attributes_eq (attrs : list DocumentAttribute) (w : World) :
  scan_attributes attrs w
  = if declares_filename attrs
    then (Raise (AttributeError "_sanitize_filename"), w)
    else (Ok None, w).
Proof.
  induction attrs as [|[name|] attrs IH]; simpl; auto.
Qed.

Section DownloadMedia.

Variables (depth : nat) (message : Message) (base_dir : Path) (w : World).

(** The two handlers, applied to what the [try] body left. *)
Lemma download_media_eq :
  download_media depth message base_dir w
  = match download_media_try message base_dir w with
    | (Ok r, w') => (Ok r, w')
    | (Raise (FloodWaitError seconds), w') =>
        (Raise (AttributeError "_download_media"),
         after w' (stats w') (fetch_script w')
               [EvLog Warning (LogRateLimited seconds); EvSleep seconds])
    | (Raise e, w') =>
        (Ok None,
         after w' (bump Errors (stats w')) (fetch_script w')
               [EvLog Error (LogMediaError (id message) e); EvIncr Errors])
    end.
Proof.
  destruct depth; cbn [download_media]; unfold try_except;
    destruct (download_media_try message base_dir w) as [[r|e] w'];
    try reflexivity;
    destruct e; unfold after; cbn; norm_trace; reflexivity.
Qed.

Lemma download_media_photo :
  media message = Some MessageMediaPhoto ->
  let target :=
    path_str (base_dir // "photos"
                // ("photo_" ++ PyStr.of_int (id message) ++ ".jpg")) in
  let rest := tl (fetch_script w) in
  download_media depth message base_dir w
  = match first_outcome w with
    | Fetched =>
        (Ok (Some target),
         after w (bump Photos (stats w)) rest
               [EvFetch (id message) target; EvIncr Photos])
    | RateLimited seconds =>
        (Raise (AttributeError "_download_media"),
         after w (stats w) rest
               [EvFetch (id message) target;
                EvLog Warning (LogRateLimited seconds); EvSleep seconds])
    | Failed what =>
        (Ok None,
         after w (bump Errors (stats w)) rest
               [EvFetch (id message) target;
                EvLog Error (LogMediaError (id message) (OtherError what));
                EvIncr Errors])
    end.
Proof.
  intros Hm target rest. rewrite download_media_eq.
  unfold download_media_try, first_outcome, rest, target. rewrite Hm.
  generalize (base_dir // "photos"
                // ("photo_" ++ PyStr.of_int (id message) ++ ".jpg")).
  intros file_path.
  unfold bind, client_download_media, incr, ret, after.
  destruct (fetch_script w) as [|[|seconds|what] script];
    cbn; norm_trace; reflexivity.
Qed.

Lemma download_media_document (doc : Document) :
  media message = Some (MessageMediaDocument doc) ->
  let k := document_category (mime_of doc) in
  let target :=
    path_str (base_dir // subdir_name k
                // synthesized_filename (id message) (mime_of doc)) in
  let rest := tl (fetch_script w) in
  download_media depth message base_dir w
  = if declares_filename (attributes doc)
    then (Ok None,
          after w (bump Errors (bump k (stats w))) (fetch_script w)
                [EvIncr k;
                 EvLog Error (LogMediaError (id message)
                                (AttributeError "_sanitize_filename"));
                 EvIncr Errors])
    else match first_outcome w with
         | Fetched =>
             (Ok (Some target),
              after w (bump k (stats w)) rest
                    [EvIncr k; EvFetch (id message) target])
         | RateLimited seconds =>
             (Raise (AttributeError "_download_media"),
              after w (bump k (stats w)) rest
                    [EvIncr k; EvFetch (id message) target;
                     EvLog Warning (LogRateLimited seconds);
                     EvSleep seconds])
         | Failed what =>
             (Ok None,
              after w (bump Errors (bump k (stats w))) rest
                    [EvIncr k; EvFetch (id message) target;
                     EvLog Error
                       (LogMediaError (id message) (OtherError what));
                     EvIncr Errors])
         end.
Proof.
  intros Hm k target rest. rewrite download_media_eq.
  unfold download_media_try, first_outcome, rest, target. rewrite Hm.
  fold (mime_of doc). fold k.
  unfold bind at 1. unfold incr at 1. unfold bind at 1.
  rewrite scan_attributes_eq.
  destruct (declares_filename (attributes doc)).
  - unfold after; cbn; norm_trace; reflexivity.
  - cbn [falsy].
    generalize (base_dir // subdir_name k
                  // synthesized_filename (id message) (mime_of doc)).
    intros file_path.
    unfold bind, client_download_media, ret, after.
    cbn [fetch_script stats messages_data trace].
    destruct (fetch_script w) as [|[|seconds|what] script];
      cbn; norm_trace; reflexivity.
Qed.

Lemma download_media_nothing :
  has_real_media message = false \/ media message = Some MessageMediaOther ->
  download_media depth message base_dir w = (Ok None, w).
Proof.
  intros H. rewrite download_media_eq. unfold download_media_try.
  destruct H as [H|H].
  - unfold has_real_media in H.
    destruct (media message) as [[| | |]|]; try discriminate; reflexivity.
  - rewrite H. reflexivity.
Qed.

End DownloadMedia.

(** ** Target filenames are single, ordinary path components *)

Section Filenames.

Variable message_id : Z.

Lemma photo_filename_no_slash :
  PyStr.has_char "/" (photo_filename message_id) = false.
Proof.
  unfold photo_filename. rewrite !has_char_append, of_int_no_slash.
  reflexivity.
Qed.

Lemma synthesized_ext (mime : string) :
  exists ext,
    synthesized_filename message_id mime
    = "file_" ++ PyStr.of_int message_id ++ "." ++ ext
    /\ PyStr.has_char "/" ext = false
    /\ (PyStr.has_char "/" mime = false -> ext = "bin")
    /\ (forall a b, mime = a ++ String "/" b ->
                    PyStr.has_char "/" b = false -> ext = b).
Proof.
  unfold synthesized_filename.
  destruct (PyStr.has_char "/" mime) eqn:E.
  - exists (PyStr.last_piece (PyStr.split "/" mime)).
    repeat split.
    + apply last_piece_no_sep.
    + discriminate.
    + intros a b -> Hb. now apply last_piece_after_sep.
  - exists "bin". repeat split.
    intros a b -> Hb. rewrite has_char_append in E.
    apply orb_false_iff in E as [_ E]. simpl in E. discriminate.
Qed.

Lemma synthesized_filename_no_slash (mime : string) :
  PyStr.has_char "/" (synthesized_filename message_id mime) = false.
Proof.
  destruct (synthesized_ext mime) as (ext & -> & Hext & _).
  rewrite !has_char_append, of_int_no_slash, Hext. reflexivity.
Qed.

Lemma subdir_name_component (k : StatKey) (p : Path) :
  p // subdir_name k = mkPath (root p) (parts p ++ [subdir_name k])
  /\ String.eqb ".." (subdir_name k) = false.
Proof. destruct k; split; reflexivity. Qed.

(** Where a target built from a category and a filename lies. *)
Lemma target_lies_under (base_dir : Path) (k : StatKey) (filename : string) :
  PyStr.has_char "/" filename = false ->
  keep_part filename = true ->
  String.eqb ".." filename = false ->
  let file_path := base_dir // subdir_name k // filename in
  parts file_path = (parts base_dir ++ [subdir_name k; filename])%list
  /\ lies_under base_dir file_path = true
  /\ lies_under (base_dir // subdir_name k) file_path = true.
Proof.
  intros Hs Hk Hd file_path. unfold file_path.
  destruct (subdir_name_component k base_dir) as [-> Hsub].
  rewrite (joinpath_single _ _ Hs Hk). cbn [parts root].
  unfold lies_under. cbn [parts root].
  rewrite Bool.eqb_reflx, strip_prefix_app, <- app_assoc, strip_prefix_app.
  change ([subdir_name k] ++ [filename])%list
    with [subdir_name k; filename].
  cbn [andb existsb orb]. rewrite Hsub, Hd.
  repeat split; reflexivity.
Qed.

End Filenames.

(** ** The media-fetch wrapper *)

(** A fetch that is attempted and fails for a reason other than a rate
    limit: the error is counted once, nothing is retried, no path is
    reported. *)
Lemma failed_fetch_is_counted_once (depth : nat) (message : Message)
  (base_dir : Path) (w : World) (what : string) (target : string) :
  first_outcome w = Failed what ->
  In (EvFetch (id message) target)
     (new_events w (snd (download_media depth message base_dir w))) ->
  fst (download_media depth message base_dir w) = Ok None
  /\ errors (stats (snd (download_media depth message base_dir w)))
     = S (errors (stats w))
  /\ counted_fetches
       (new_events w (snd (download_media depth message base_dir w))) = 1.
Proof.
  intros Hout Hin.
  destruct (media message) as [[|doc| |]|] eqn:Hm.
  - rewrite (download_media_photo depth message base_dir w Hm), Hout in *.
    cbn [fst snd] in *. rewrite new_events_after.
    destruct (stats w); repeat split; reflexivity.
  - rewrite (download_media_document depth message base_dir w doc Hm) in *.
    destruct (declares_filename (attributes doc)).
    + cbn [fst snd] in *. rewrite new_events_after in Hin.
      destruct Hin as [H|[H|[H|[]]]]; discriminate.
    + rewrite Hout in *. cbn [fst snd] in *. rewrite new_events_after.
      destruct (document_category_cases (mime_of doc)) as [E|[E|E]];
        rewrite E; destruct (stats w); repeat split; reflexivity.
  - rewrite download_media_nothing in Hin
      by (left; unfold has_real_media; now rewrite Hm).
    cbn [snd] in Hin. rewrite new_events_refl in Hin. destruct Hin.
  - rewrite download_media_nothing in Hin by now right.
    cbn [snd] in Hin. rewrite new_events_refl in Hin. destruct Hin.
  - rewrite download_media_nothing in Hin
      by (left; unfold has_real_media; now rewrite Hm).
    cbn [snd] in Hin. rewrite new_events_refl in Hin. destruct Hin.
Qed.

(** A fetch answered by a rate limit is followed by the wait and then
    by [AttributeError]; the fetch is not issued a second time, whatever
    the message and however deep the call may nest. *)
Lemma rate_limited_fetch_is_never_retried (depth : nat) (message : Message)
  (base_dir : Path) (w : World) (seconds : Z) (target : string) :
  first_outcome w = RateLimited seconds ->
  In (EvFetch (id message) target)
     (new_events w (snd (download_media depth message base_dir w))) ->
  fst (download_media depth message base_dir w)
  = Raise (AttributeError "_download_media")
  /\ In (EvSleep seconds)
        (new_events w (snd (download_media depth message base_dir w)))
  /\ counted_fetches
       (new_events w (snd (download_media depth message base_dir w))) = 1.
Proof.
  intros Hout Hin.
  destruct (media message) as [[|doc| |]|] eqn:Hm.
  - rewrite (download_media_photo depth message base_dir w Hm), Hout in *.
    cbn [fst snd] in *. rewrite new_events_after.
    repeat split. right. right. now left.
  - rewrite (download_media_document depth message base_dir w doc Hm) in *.
    destruct (declares_filename (attributes doc)).
    + cbn [fst snd] in *. rewrite new_events_after in Hin.
      destruct Hin as [H|[H|[H|[]]]]; discriminate.
    + rewrite Hout in *. cbn [fst snd] in *. rewrite new_events_after.
      repeat split. right. right. right. now left.
  - rewrite download_media_nothing in Hin
      by (left; unfold has_real_media; now rewrite Hm).
    cbn [snd] in Hin. rewrite new_events_refl in Hin. destruct Hin.
  - rewrite download_media_nothing in Hin by now right.
    cbn [snd] in Hin. rewrite new_events_refl in Hin. destruct Hin.
  - rewrite download_media_nothing in Hin
      by (left; unfold has_real_media; now rewrite Hm).
    cbn [snd] in Hin. rewrite new_events_refl in Hin. destruct Hin.
Qed.

(** C2 -- on a rate-limit signal the wrapper waits the given seconds and
    then raises [AttributeError] instead of retrying: the handler calls
    [self._download_media], a name the class does not bind.  Evaluated on a
    photo whose first fetch is answered by a 5-second rate limit: one
    fetch, one wait, no second fetch, the exception escapes. *)
Theorem rate_limit_handler_raises_instead_of_retrying (depth : nat) :
  download_media depth (media_message 7 MessageMediaPhoto) sample_dir
                 (initial_world [RateLimited 5; Fetched])
  = (Raise (AttributeError "_download_media"),
     mkWorld initial_stats [] [Fetched]
       [ EvFetch 7 "downloads/chan_20240101_120000/photos/photo_7.jpg";
         EvLog Warning (LogRateLimited 5);
         EvSleep 5 ]).
Proof. destruct depth; reflexivity. Qed.

(** C3 -- a document declaring the filename [report.pdf] with mime-type
    [application/pdf] is counted under [documents], but no path is
    returned and nothing is fetched: sanitizing the declared name goes
    through [self._sanitize_filename], which the class does not bind, and
    the resulting [AttributeError] is absorbed as a per-item error. *)
Theorem declared_filename_is_never_fetched (depth : nat) :
  download_media depth (media_message 9 report_pdf) sample_dir
                 (initial_world [])
  = (Ok None,
     mkWorld (mkStats 0 0 0 1 0 1) [] []
       [ EvIncr Documents;
         EvLog Error
           (LogMediaError 9 (AttributeError "_sanitize_filename"));
         EvIncr Errors ]).
Proof. destruct depth; reflexivity. Qed.

(** ** Routing of fetched media *)


(** C7 -- a document none of whose attributes declares a filename is
    fetched to [file_<message id>.<ext>] in its category's subdirectory,
    where [ext] is what follows the slash of the mime-type and [bin] when
    the mime-type has no slash; the returned path is that target when the
    fetch goes through. *)
Theorem undeclared_filename_is_synthesized
  (depth : nat) (message : Message) (doc : Document) (base_dir : Path)
  (w : World) :
  media message = Some (MessageMediaDocument doc) ->
  declares_filename (attributes doc) = false ->
  exists ext,
    (PyStr.has_char "/" (mime_of doc) = false -> ext = "bin")
    /\ (forall a b, mime_of doc = a ++ String "/" b ->
                    PyStr.has_char "/" b = false -> ext = b)
    /\ let filename := "file_" ++ PyStr.of_int (id message) ++ "." ++ ext in
       let category := document_category (mime_of doc) in
       let target := base_dir // subdir_name category // filename in
       parts target = (parts base_dir ++ [subdir_name category; filename])%list
       /\ (exists evs,
             new_events w (snd (download_media depth message base_dir w))
             = EvIncr category
                 :: EvFetch (id message) (path_str target) :: evs)
       /\ (first_outcome w = Fetched ->
           fst (download_media depth message base_dir w)
           = Ok (Some (path_str target))).
Proof.
  intros Hm Hdecl.
  destruct (synthesized_ext (id message) (mime_of doc))
    as (ext & Hname & Hext & Hbin & Hafter).
  exists ext. split; [exact Hbin|]. split; [exact Hafter|].
  cbn zeta. rewrite <- Hname.
  rewrite (download_media_document depth message base_dir w doc Hm), Hdecl.
  split; [|split].
  - apply target_lies_under; auto using synthesized_filename_no_slash.
  - destruct (first_outcome w); cbn [snd]; rewrite new_events_after;
      eexists; reflexivity.
  - intros ->. reflexivity.
Qed.

Lemma undeclared_filename_scenario :
  fst (download_media 0 (media_message 42 video_mp4) sample_dir
                      (initial_world []))
  = Ok (Some "downloads/chan_20240101_120000/videos/file_42.mp4").
Proof.
  destruct (undeclared_filename_is_synthesized
              0 (media_message 42 video_mp4)
              (mkDocument (Some "video/mp4") [DocumentAttributeOther])
              sample_dir (initial_world []) eq_refl eq_refl)
    as (ext & _ & Hext & _ & _ & Hret).
  rewrite (Hext "video" "mp4" eq_refl eq_refl) in Hret.
  exact (Hret eq_refl).
Defined.

(** ** Order of counting and fetching *)



(** ** One turn of the ingestion loop *)

Section Turn.

Variables (depth : nat) (base_dir messages_file : Path).

Lemma process_message_service (message : Message) (w : World) :
  is_service message = true ->
  process_message depth message base_dir messages_file w = (Ok tt, w).
Proof. intros H. unfold process_message. now rewrite H. Qed.

Lemma process_message_plain (message : Message) (w : World) :
  is_service message = false ->
  has_real_media message = false ->
  process_message depth message base_dir messages_file w
  = (Ok tt,
     mkWorld (bump Messages (stats w))
             (messages_data w ++ [message_data message None])
             (fetch_script w)
             (trace w ++ plain_turn (messages (stats w)) message
                                    messages_file)).
Proof.
  intros Hs Hm. unfold process_message. rewrite Hs, Hm.
  unfold plain_turn, progress_events.
  unfold bind, incr, ret, append_record, emit, get_stats, log, emit.
  cbn -[Nat.modulo Nat.eqb path_str transcript_block message_data].
  destruct (Nat.eqb (Nat.modulo (S (messages (stats w))) 100) 0);
    cbn -[path_str transcript_block message_data];
    norm_trace; reflexivity.
Qed.

Lemma process_message_media (message : Message) (w : World) :
  is_service message = false ->
  has_real_media message = true ->
  process_message depth message base_dir messages_file w
  = (Raise (AttributeError "_download_media"),
     after w (bump Messages (stats w)) (fetch_script w) [EvIncr Messages]).
Proof.
  intros Hs Hm. unfold process_message. rewrite Hs, Hm. reflexivity.
Qed.

End Turn.

(** C9 -- a message whose media is a link preview, or which has no media,
    is never fetched: [download_media] returns no path and leaves the
    world untouched, and the loop's turn for such a message appends a
    record with a null media path without any fetch. *)
Theorem link_previews_and_absent_media_are_never_fetched
  (depth : nat) (message : Message) (base_dir messages_file : Path)
  (w : World) :
  media message = Some MessageMediaWebPage \/ media message = None ->
  download_media depth message base_dir w = (Ok None, w)
  /\ (is_service message = false ->
      exists r w',
        process_message depth message base_dir messages_file w = (Ok tt, w')
        /\ messages_data w' = (messages_data w ++ [r])%list
        /\ rec_id r = id message
        /\ rec_media_path r = None
        /\ fetch_script w' = fetch_script w
        /\ forall message_id file_path,
             ~ In (EvFetch message_id file_path) (new_events w w')).
Proof.
  intros Hmedia.
  assert (Hreal : has_real_media message = false)
    by (unfold has_real_media; destruct Hmedia as [-> | ->]; reflexivity).
  split.
  - apply download_media_nothing. now left.
  - intros Hs. eexists. eexists.
    split; [apply (process_message_plain _ _ _ _ _ Hs Hreal)|].
    cbn [messages_data fetch_script]. repeat split.
    intros message_id file_path.
    rewrite new_events_extend.
    unfold plain_turn, progress_events. cbn [app].
    destruct (Nat.eqb _ 0);
      [intros [H|[H|[H|[H|[]]]]] | intros [H|[H|[H|[]]]]]; discriminate.
Qed.

Lemma link_preview_scenario :
  download_media 0 (media_message 5 MessageMediaWebPage) sample_dir
                 (initial_world [])
  = (Ok None, initial_world []).
Proof.
  apply (link_previews_and_absent_media_are_never_fetched
           0 (media_message 5 MessageMediaWebPage) sample_dir sample_file
           (initial_world [])).
  left. reflexivity.
Defined.

(** ** The ingestion loop *)

Section Counting.

Lemma counted_app (a b : list Event) :
  counted (a ++ b) = counted a + counted b.
Proof. unfold counted. now rewrite filter_app, length_app. Qed.

Lemma recorded_app (a b : list Event) :
  recorded (a ++ b) = recorded a + recorded b.
Proof. unfold recorded. now rewrite filter_app, length_app. Qed.

Lemma records_of_app (a b : list Event) :
  records_of (a ++ b) = (records_of a ++ records_of b)%list.
Proof.
  induction a as [|e a IH]; [reflexivity|].
  destruct e; cbn; now rewrite ?IH.
Qed.

Lemma records_of_length (evs : list Event) :
  length (records_of evs) = recorded evs.
Proof.
  unfold recorded.
  induction evs as [|e evs IH]; [reflexivity|].
  destruct e; cbn; now rewrite ?IH.
Qed.

(** The progress line neither counts nor records. *)
Lemma progress_events_silent (k n : nat) :
  counted (firstn n (progress_events k)) = 0
  /\ recorded (firstn n (progress_events k)) = 0
  /\ records_of (progress_events k) = [].
Proof.
  unfold progress_events. destruct (Nat.eqb (Nat.modulo k 100) 0);
    destruct n as [|[|n]]; repeat split.
Qed.

Variables (k : nat) (message : Message) (messages_file : Path).

Lemma plain_turn_totals :
  counted (plain_turn k message messages_file) = 1
  /\ recorded (plain_turn k message messages_file) = 1
  /\ records_of (plain_turn k message messages_file)
     = [message_data message None].
Proof.
  unfold plain_turn.
  destruct (progress_events_silent (S k) (S (S 0))) as (Hc & Hr & Hrec).
  rewrite counted_app, recorded_app, records_of_app, Hrec.
  unfold progress_events in *.
  destruct (Nat.eqb (Nat.modulo (S k) 100) 0); repeat split.
Qed.

(** Inside a turn the counter is level with the records or one ahead. *)
Lemma plain_turn_prefix (n : nat) :
  recorded (firstn n (plain_turn k message messages_file))
  <= counted (firstn n (plain_turn k message messages_file))
  <= S (recorded (firstn n (plain_turn k message messages_file))).
Proof.
  unfold plain_turn.
  destruct n as [|[|[|n]]]; [cbn; lia | cbn; lia | cbn; lia |].
  destruct (progress_events_silent (S k) n) as (Hc & Hr & _).
  change (firstn (S (S (S n))) ([?a; ?b; ?c] ++ ?l)%list)
    with (a :: b :: c :: firstn n l).
  change (counted (?a :: ?b :: ?c :: ?l)) with (1 + counted l).
  change (recorded (?a :: ?b :: ?c :: ?l)) with (1 + recorded l).
  lia.
Qed.

End Counting.

Section Loop.

Variables (depth : nat) (base_dir messages_file : Path).

Lemma ingest_cons (message : Message) (items : list Message) (w : World) :
  ingest depth (message :: items) base_dir messages_file w
  = match process_message depth message base_dir messages_file w with
    | (Ok _, w') => ingest depth items base_dir messages_file w'
    | (Raise e, w') => (Raise e, w')
    end.
Proof. reflexivity. Qed.

(** What a run of the loop leaves behind, in terms of its effects. *)
Lemma ingest_effects (items : list Message) (w : World) :
  exists evs,
    trace (snd (ingest depth items base_dir messages_file w))
    = (trace w ++ evs)%list
    /\ messages (stats (snd (ingest depth items base_dir messages_file w)))
       = messages (stats w) + counted evs
    /\ messages_data (snd (ingest depth items base_dir messages_file w))
       = (messages_data w ++ records_of evs)%list
    /\ (forall n, recorded (firstn n evs) <= counted (firstn n evs)
                  <= S (recorded (firstn n evs)))
    /\ (fst (ingest depth items base_dir messages_file w) = Ok tt ->
        counted evs = recorded evs
        /\ map rec_id (records_of evs)
           = map id (filter user_content items))
    /\ (fst (ingest depth items base_dir messages_file w) <> Ok tt ->
        counted evs = S (recorded evs)).
Proof.
  revert w; induction items as [|message items IH]; intros w.
  - exists []. cbn. rewrite !app_nil_r.
    split; [reflexivity|]. split; [lia|]. split; [reflexivity|].
    split; [intros n; destruct n; cbn; lia|].
    split; [intros _; split; reflexivity|].
    intros H; now contradiction H.
  - rewrite ingest_cons.
    destruct (is_service message) eqn:Hs.
    + rewrite (process_message_service _ _ _ _ _ Hs). cbn beta iota.
      destruct (IH w) as (evs & H). exists evs.
      cbn [filter]. unfold user_content at 1. rewrite Hs. cbn [negb].
      exact H.
    + destruct (has_real_media message) eqn:Hm.
      * rewrite (process_message_media _ _ _ _ _ Hs Hm). cbn beta iota.
        exists [EvIncr Messages]. unfold after. cbn [fst snd trace stats messages_data].
        split; [reflexivity|].
        split; [destruct (stats w); cbn; lia|].
        split; [now rewrite app_nil_r|].
        split; [intros n; destruct n as [|[|n]]; cbn; lia|].
        split; [discriminate|]. intros _. reflexivity.
      * rewrite (process_message_plain _ _ _ _ _ Hs Hm). cbn beta iota.
        match goal with
        | |- context [ingest _ _ _ _ ?w'] => set (w1 := w')
        end.
        destruct (IH w1) as (evs & Ht & Hc & Hd & Hp & Hok & Hko).
        destruct (plain_turn_totals (messages (stats w)) message
                    messages_file) as (Tc & Tr & Trec).
        exists (plain_turn (messages (stats w)) message messages_file
                ++ evs)%list.
        rewrite Ht, Hc, Hd, counted_app, recorded_app, records_of_app,
          Tc, Tr, Trec.
        unfold w1. cbn [trace stats messages_data bump messages].
        repeat rewrite <- app_assoc.
        split; [reflexivity|]. split; [lia|]. split; [reflexivity|].
        split; [|split].
        -- intros n. rewrite firstn_app, counted_app, recorded_app.
           destruct (Nat.le_gt_cases
                       (length (plain_turn (messages (stats w)) message
                                  messages_file)) n) as [Hle|Hgt].
           ++ rewrite (firstn_all2 _ Hle), Tc, Tr.
              specialize (Hp (n - length (plain_turn (messages (stats w))
                                            message messages_file))).
              lia.
           ++ replace (n - length (plain_turn (messages (stats w)) message
                                     messages_file)) with 0 by lia.
              pose proof (plain_turn_prefix (messages (stats w)) message
                            messages_file n).
              cbn [firstn]. cbn [counted recorded filter length]. lia.
        -- intros Hfin. destruct (Hok Hfin) as [E1 E2].
           split; [lia|]. cbn [filter]. unfold user_content at 1.
           rewrite Hs. cbn [negb]. rewrite map_app, E2. reflexivity.
        -- intros Hfin. specialize (Hko Hfin). lia.
Qed.

End Loop.

(** C4 (as amended) -- service messages change nothing; over any run of
    the loop the [messages] counter has grown by the number of increments
    and the record list by the number of appends, at every point of the
    run the counter is level with the records or exactly one ahead
    (it is incremented at the top of a turn, the record is appended
    further down), and when the loop completes the two are level again
    with one record, in order, per non-service message. *)
Theorem counter_level_with_records_between_turns
  (depth : nat) (items : list Message) (base_dir messages_file : Path)
  (w : World) :
  (forall message w0,
      is_service message = true ->
      process_message depth message base_dir messages_file w0 = (Ok tt, w0))
  /\ messages (stats (snd (ingest depth items base_dir messages_file w)))
     = messages (stats w)
       + counted (new_events w
                    (snd (ingest depth items base_dir messages_file w)))
  /\ length (messages_data
               (snd (ingest depth items base_dir messages_file w)))
     = length (messages_data w)
       + recorded (new_events w
                     (snd (ingest depth items base_dir messages_file w)))
  /\ (forall n,
         recorded
           (firstn n (new_events w
                        (snd (ingest depth items base_dir messages_file w))))
         <= counted
              (firstn n (new_events w
                           (snd (ingest depth items base_dir messages_file w))))
         <= S (recorded
                 (firstn n
                    (new_events w
                       (snd (ingest depth items base_dir messages_file w))))))
  /\ (fst (ingest depth items base_dir messages_file w) = Ok tt ->
      (exists records,
          messages_data (snd (ingest depth items base_dir messages_file w))
          = (messages_data w ++ records)%list
          /\ map rec_id records = map id (filter user_content items))
      /\ (messages (stats w) = length (messages_data w) ->
          messages (stats (snd (ingest depth items base_dir messages_file w)))
          = length (messages_data
                      (snd (ingest depth items base_dir messages_file w))))).
Proof.
  split; [intros message w0; apply process_message_service|].
  destruct (ingest_effects depth base_dir messages_file items w)
    as (evs & Ht & Hc & Hd & Hp & Hok & _).
  assert (Hev : new_events w
                  (snd (ingest depth items base_dir messages_file w)) = evs).
  { unfold new_events. rewrite Ht.
    now rewrite skipn_app, skipn_all, Nat.sub_diag. }
  rewrite Hev, Hc, Hd, length_app, records_of_length.
  split; [reflexivity|]. split; [reflexivity|]. split; [exact Hp|].
  intros Hfin. destruct (Hok Hfin) as [Hlevel Hids]. split.
  - exists (records_of evs). now split.
  - lia.
Qed.

Lemma three_texts_scenario :
  fst (ingest 0 (service_message 4 :: three_texts) sample_dir sample_file
              (initial_world [])) = Ok tt
  /\ messages (stats (snd (ingest 0 (service_message 4 :: three_texts)
                                  sample_dir sample_file (initial_world []))))
     = length (messages_data
                 (snd (ingest 0 (service_message 4 :: three_texts)
                              sample_dir sample_file (initial_world [])))).
Proof.
  split; [reflexivity|].
  destruct (counter_level_with_records_between_turns
              0 (service_message 4 :: three_texts) sample_dir sample_file
              (initial_world [])) as (_ & _ & _ & _ & Hdone).
  destruct (Hdone eq_refl) as [_ Hlevel]. apply Hlevel. reflexivity.
Defined.

(** C4 (as stated) fails: inside the turn of a text-only message the
    counter already stands at 1 while no record has been appended, and a
    run that aborts within a turn ends in that state. *)
Lemma counter_leads_records_inside_a_turn :
  ~ in_step (trace (snd one_text_run))
  /\ fst one_photo_run = Raise (AttributeError "_download_media")
  /\ messages (stats (snd one_photo_run)) = 1
  /\ length (messages_data (snd one_photo_run)) = 0.
Proof.
  split; [|repeat split].
  intros H. specialize (H 1). discriminate H.
Qed.

(** ** The whole run *)

Section Run.

Variables (depth : nat) (T : Transport) (channel_username : string)
          (limit : option nat) (w : World).

(** A run ends in one of three ways, each before any directory, file or
    record exists. *)
Lemma download_channel_eq :
  download_channel depth T channel_username limit w
  = match connect_outcome T with
    | Some e =>
        (Raise e,
         after w (stats w) (fetch_script w)
               [EvConnect; EvLog Error (LogChannelError e); EvDisconnect])
    | None =>
        match get_entity T (clean_username channel_username) with
        | Raise e =>
            (Ok tt,
             after w (stats w) (fetch_script w)
                   [EvConnect; EvLog Info LogConnected;
                    EvLog Info
                      (LogFetching (clean_username channel_username));
                    EvGetEntity (clean_username channel_username);
                    EvLog Error
                      (LogCouldNotFind (clean_username channel_username) e);
                    EvDisconnect])
        | Ok channel =>
            (Raise (AttributeError "_create_download_directory"),
             after w (stats w) (fetch_script w)
                   [EvConnect; EvLog Info LogConnected;
                    EvLog Info
                      (LogFetching (clean_username channel_username));
                    EvGetEntity (clean_username channel_username);
                    EvLog Error
                      (LogChannelError
                         (AttributeError "_create_download_directory"));
                    EvDisconnect])
        end
    end.
Proof.
  unfold download_channel, finally, try_except, connect, client_get_entity,
    download_resolved, after.
  generalize (clean_username channel_username). intros n.
  unfold bind, emit, log, emit, raise, ret.
  destruct (connect_outcome T) as [e|].
  - cbn. norm_trace. reflexivity.
  - cbn -[getattr_method]. destruct (get_entity T n) as [channel|e].
    + cbn. norm_trace. reflexivity.
    + cbn. norm_trace. reflexivity.
Qed.

End Run.

(** C1 -- a run on a channel that resolves and holds three text-only
    messages does not reach the loop: creating the download directory
    goes through [self._create_download_directory], which the class does
    not bind, so the run ends with [AttributeError] after the resolution,
    with the [messages] counter at 0 and no structured log written. *)
Theorem resolved_channel_run_aborts_before_ingestion (depth : nat) :
  download_channel depth (sample_transport three_texts) "@chan" None
                   (initial_world [])
  = (Raise (AttributeError "_create_download_directory"),
     mkWorld initial_stats [] []
       [ EvConnect;
         EvLog Info LogConnected;
         EvLog Info (LogFetching "chan");
         EvGetEntity "chan";
         EvLog Error
           (LogChannelError (AttributeError "_create_download_directory"));
         EvDisconnect ]).
Proof. rewrite download_channel_eq. reflexivity. Qed.

(** C6 -- when the channel identifier does not resolve, the run reports
    the failure and returns without ingesting anything: the counters and
    the record list are untouched and its effects are the connection, the
    lookup, the error report and the disconnection, with no directory
    created; and in no run is a directory created unless the identifier
    resolved. *)
Theorem unresolved_channel_aborts_without_directory
  (depth : nat) (T : Transport) (channel_username : string)
  (limit : option nat) (w : World) :
  (forall e,
      connect_outcome T = None ->
      get_entity T (clean_username channel_username) = Raise e ->
      download_channel depth T channel_username limit w
      = (Ok tt,
         mkWorld (stats w) (messages_data w) (fetch_script w)
           (trace w ++
            [ EvConnect;
              EvLog Info LogConnected;
              EvLog Info (LogFetching (clean_username channel_username));
              EvGetEntity (clean_username channel_username);
              EvLog Error
                (LogCouldNotFind (clean_username channel_username) e);
              EvDisconnect ])))
  /\ (forall dir,
         In (EvMkdir dir)
            (new_events w
               (snd (download_channel depth T channel_username limit w))) ->
         exists channel,
           get_entity T (clean_username channel_username) = Ok channel).
Proof.
  rewrite download_channel_eq. split.
  - intros e -> ->. reflexivity.
  - intros dir.
    destruct (connect_outcome T) as [e|];
      [|destruct (get_entity T (clean_username channel_username))
          as [channel|e]];
      cbn [snd]; rewrite new_events_after; intros Hin.
    + destruct Hin as [H|[H|[H|[]]]]; discriminate.
    + now exists channel.
    + destruct Hin as [H|[H|[H|[H|[H|[H|[]]]]]]]; discriminate.
Qed.

Lemma unresolved_channel_scenario :
  download_channel 0 (sample_transport three_texts) "@nochan" None
                   (initial_world [])
  = (Ok tt,
     mkWorld initial_stats [] []
       [ EvConnect;
         EvLog Info LogConnected;
         EvLog Info (LogFetching "nochan");
         EvGetEntity "nochan";
         EvLog Error
           (LogCouldNotFind "nochan" (OtherError "no such entity"));
         EvDisconnect ]).
Proof.
  destruct (unresolved_channel_aborts_without_directory
              0 (sample_transport three_texts) "@nochan" None
              (initial_world [])) as [Hunresolved _].
  apply (Hunresolved (OtherError "no such entity")); reflexivity.
Defined.


(** * Further properties *)

(** ** More on the sanitizer *)

Lemma scrub_spec (c : ascii) :
  scrub c = if is_invalid c then "_"%char else c.
Proof. destruct c as [[] [] [] [] [] [] [] []]; reflexivity. Qed.

Lemma take_all (n : nat) (s : string) :
  String.length s <= n -> PyStr.take n s = s.
Proof.
  revert s; induction n as [|n IH]; intros [|c s]; simpl; try reflexivity.
  - lia.
  - intros H. rewrite IH by lia. reflexivity.
Qed.

Lemma take_length_min (n : nat) (s : string) :
  String.length (PyStr.take n s) = Nat.min (String.length s) n.
Proof.
  revert s; induction n as [|n IH]; intros [|c s]; simpl; try reflexivity.
  now rewrite IH.
Qed.

Lemma smap_length (f : ascii -> ascii) (s : string) :
  String.length (smap f s) = String.length s.
Proof. induction s as [|c s IH]; simpl; [reflexivity | now rewrite IH]. Qed.

Lemma get_take (i n : nat) (s : string) :
  String.get i (PyStr.take n s) = if Nat.ltb i n then String.get i s else None.
Proof.
  revert i s; induction n as [|n IH]; intros i s.
  - destruct s; reflexivity.
  - destruct s as [|c s]; [destruct (Nat.ltb i (S n)); reflexivity|].
    destruct i as [|i]; [reflexivity|]. simpl. rewrite IH.
    reflexivity.
Qed.

Lemma get_smap (f : ascii -> ascii) (i : nat) (s : string) :
  String.get i (smap f s) = option_map f (String.get i s).
Proof.
  revert i; induction s as [|c s IH]; intros i; [reflexivity|].
  destruct i as [|i]; [reflexivity | apply IH].
Qed.

Lemma valid_chars_scrub (s : string) :
  (forall c, In c (PyStr.chars invalid_chars) -> PyStr.has_char c s = false) ->
  smap scrub s = s.
Proof.
  induction s as [|c s IH]; intros H; simpl; [reflexivity|].
  rewrite IH.
  - f_equal. rewrite scrub_spec. unfold is_invalid.
    destruct (existsb (Ascii.eqb c) (PyStr.chars invalid_chars)) eqn:E;
      [|reflexivity].
    apply existsb_exists in E as (x & Hx & Hcx).
    specialize (H x Hx). simpl in H. rewrite Hcx in H. discriminate.
  - intros x Hx. specialize (H x Hx). simpl in H.
    now apply orb_false_iff in H as [_ H].
Qed.

(** X1 -- a name of at most 255 characters that holds none of the nine
    invalid characters comes back unchanged; dots in particular are kept,
    so the two-dot name passes through as it is. *)
Theorem sanitize_filename_keeps_clean_names (s : string) :
  (forall c, In c (PyStr.chars invalid_chars) -> PyStr.has_char c s = false) ->
  String.length s <= 255 ->
  sanitize_filename s = s.
Proof.
  intros Hclean Hlen.
  rewrite sanitize_filename_smap, (valid_chars_scrub _ Hclean).
  now apply take_all.
Qed.

Lemma two_dots_pass_the_sanitizer : sanitize_filename ".." = "..".
Proof.
  apply sanitize_filename_keeps_clean_names.
  - intros c Hin. cbn in Hin.
    repeat (destruct Hin as [<-|Hin]; [reflexivity|]). destruct Hin.
  - cbn. lia.
Defined.

(** X2 -- the result is as long as the argument, up to the cut at 255:
    replacing never changes the length. *)
Theorem sanitize_filename_length (s : string) :
  String.length (sanitize_filename s) = Nat.min (String.length s) 255.
Proof.
  now rewrite sanitize_filename_smap, take_length_min, smap_length.
Qed.

(** X3 -- position by position: the character at index [i] of the result
    is the one of the argument, with an underscore in place of an invalid
    one, for [i] below 255, and there is none from 255 on.  The nine
    successive replacements amount to one pass. *)
Theorem sanitize_filename_characterwise (s : string) (i : nat) :
  String.get i (sanitize_filename s)
  = if Nat.ltb i 255
    then option_map (fun c => if is_invalid c then "_"%char else c)
                    (String.get i s)
    else None.
Proof.
  rewrite sanitize_filename_smap, get_take, get_smap.
  destruct (Nat.ltb i 255); [|reflexivity].
  destruct (String.get i s) as [c|]; [|reflexivity].
  cbn [option_map]. now rewrite scrub_spec.
Qed.

(** ** Substrings and the category of a document *)

Lemma prefix_spec (p s : string) :
  String.prefix p s = true <-> exists b, s = p ++ b.
Proof.
  revert s; induction p as [|c p IH]; intros s.
  - split; [intros _; now exists s | intros _; destruct s; reflexivity].
  - destruct s as [|d s]; cbn [String.prefix].
    + split; [discriminate | intros (b & H); discriminate H].
    + destruct (ascii_dec c d) as [<-|Hne].
      * rewrite IH. split; intros (b & H); exists b.
        -- now rewrite H.
        -- now injection H.
      * split; [discriminate|]. intros (b & H). injection H as H1 H2.
        now contradiction Hne.
Qed.

Lemma contains_unfold (sub s : string) :
  PyStr.contains sub s
  = String.prefix sub s
    || match s with
       | EmptyString => false
       | String _ s' => PyStr.contains sub s'
       end.
Proof. destruct s; reflexivity. Qed.

Lemma contains_spec (sub s : string) :
  PyStr.contains sub s = true <-> exists a b, s = a ++ sub ++ b.
Proof.
  split.
  - induction s as [|c s IH]; rewrite contains_unfold; intros H;
      apply orb_true_iff in H as [H|H]; try discriminate.
    + apply prefix_spec in H as (b & ->). now exists "", b.
    + apply prefix_spec in H as (b & ->). now exists "", b.
    + destruct (IH H) as (a & b & ->). now exists (String c a), b.
  - intros (a & b & ->). induction a as [|c a IH].
    + rewrite contains_unfold. apply orb_true_iff. left.
      apply prefix_spec. now exists b.
    + rewrite contains_unfold. apply orb_true_iff. right. exact IH.
Qed.

(** X4 -- a document is routed by substrings of its mime-type, the word
    video first: it is a video exactly when video occurs somewhere in the
    mime-type, audio exactly when video does not occur and audio or ogg
    does, and a plain document exactly when none of the three occurs. *)
Theorem document_category_by_substring (mime : string) :
  (document_category mime = Videos <->
   exists a b, mime = a ++ "video" ++ b)
  /\ (document_category mime = Audio <->
      ~ (exists a b, mime = a ++ "video" ++ b)
      /\ ((exists a b, mime = a ++ "audio" ++ b)
          \/ exists a b, mime = a ++ "ogg" ++ b))
  /\ (document_category mime = Documents <->
      ~ (exists a b, mime = a ++ "video" ++ b)
      /\ ~ (exists a b, mime = a ++ "audio" ++ b)
      /\ ~ (exists a b, mime = a ++ "ogg" ++ b)).
Proof.
  rewrite <- !contains_spec. unfold document_category.
  destruct (PyStr.contains "video" mime),
           (PyStr.contains "audio" mime),
           (PyStr.contains "ogg" mime); cbn [orb];
    repeat split; try discriminate; try reflexivity; intuition discriminate.
Qed.

(** ** More on [download_media] *)

(** The cases of one call: what the media is, whether a filename is
    declared, what the remote side answers. *)
Ltac media_cases depth message base_dir w :=
  let Hm := fresh "Hm" in
  let doc := fresh "doc" in
  destruct (media message) as [[|doc| |]|] eqn:Hm;
  [ rewrite (download_media_photo depth message base_dir w Hm);
    destruct (first_outcome w) eqn:?
  | rewrite (download_media_document depth message base_dir w doc Hm);
    destruct (document_category_cases (mime_of doc)) as [?E|[?E|?E]];
    rewrite ?E;
    (destruct (declares_filename (attributes doc)) eqn:?;
       [|destruct (first_outcome w) eqn:?])
  | rewrite (download_media_nothing depth message base_dir w)
      by (left; unfold has_real_media; now rewrite Hm)
  | rewrite (download_media_nothing depth message base_dir w) by now right
  | rewrite (download_media_nothing depth message base_dir w)
      by (left; unfold has_real_media; now rewrite Hm) ];
  cbn [fst snd]; rewrite ?new_events_after, ?new_events_refl;
  cbn [after stats messages_data fetch_script trace].

(** X5 -- one call issues at most one fetch, and takes one answer off the
    remote side's script exactly when it does. *)
Theorem download_media_fetches_at_most_once
  (depth : nat) (message : Message) (base_dir : Path) (w : World) :
  counted_fetches
    (new_events w (snd (download_media depth message base_dir w))) <= 1
  /\ fetch_script (snd (download_media depth message base_dir w))
     = if Nat.eqb (counted_fetches
                     (new_events w
                        (snd (download_media depth message base_dir w)))) 0
       then fetch_script w
       else tl (fetch_script w).
Proof.
  media_cases depth message base_dir w; cbn; split; auto; lia.
Qed.

(** X6 -- no counter ever goes down in a call, each goes up by at most
    one and all six together by at most two; the [messages] counter and
    the record list are not touched. *)
Theorem download_media_counters_only_grow
  (depth : nat) (message : Message) (base_dir : Path) (w : World) :
  (forall k,
      stat k (stats w)
      <= stat k (stats (snd (download_media depth message base_dir w)))
      <= S (stat k (stats w)))
  /\ total (stats (snd (download_media depth message base_dir w)))
     <= total (stats w) + 2
  /\ messages (stats (snd (download_media depth message base_dir w)))
     = messages (stats w)
  /\ messages_data (snd (download_media depth message base_dir w))
     = messages_data w.
Proof.
  media_cases depth message base_dir w;
    destruct (stats w); unfold total; cbn;
    (split; [intros k; destruct k; cbn; lia|]);
    (split; [lia|]); split; reflexivity.
Qed.

(** X7 -- a document one of whose attributes declares a filename is
    never fetched: the call counts it under its category, counts one
    error, returns no path and leaves the remote side's script as it
    was. *)
Theorem declared_filename_blocks_the_fetch
  (depth : nat) (message : Message) (doc : Document) (base_dir : Path)
  (w : World) :
  media message = Some (MessageMediaDocument doc) ->
  declares_filename (attributes doc) = true ->
  fst (download_media depth message base_dir w) = Ok None
  /\ counted_fetches
       (new_events w (snd (download_media depth message base_dir w))) = 0
  /\ fetch_script (snd (download_media depth message base_dir w))
     = fetch_script w
  /\ errors (stats (snd (download_media depth message base_dir w)))
     = S (errors (stats w))
  /\ stat (document_category (mime_of doc))
          (stats (snd (download_media depth message base_dir w)))
     = S (stat (document_category (mime_of doc)) (stats w)).
Proof.
  intros Hm Hdecl.
  rewrite (download_media_document depth message base_dir w doc Hm), Hdecl.
  cbn [fst snd]. rewrite new_events_after. cbn [after stats fetch_script].
  destruct (document_category_cases (mime_of doc)) as [E|[E|E]];
    rewrite E; destruct (stats w); repeat split.
Qed.

Lemma report_pdf_blocks_the_fetch :
  fst (download_media 0 (media_message 9 report_pdf) sample_dir
                      (initial_world [Fetched])) = Ok None
  /\ fetch_script
       (snd (download_media 0 (media_message 9 report_pdf) sample_dir
                            (initial_world [Fetched]))) = [Fetched].
Proof.
  destruct (declared_filename_blocks_the_fetch
              0 (media_message 9 report_pdf)
              (mkDocument (Some "application/pdf")
                 [DocumentAttributeOther;
                  DocumentAttributeFilename "report.pdf"])
              sample_dir (initial_world [Fetched]) eq_refl eq_refl)
    as (Hr & _ & Hs & _).
  split; [exact Hr | exact Hs].
Defined.

(** X8 -- a path is returned only for a file that was fetched: the remote
    side answered the call's fetch, the fetch went to that very path for
    that message, and no error was counted. *)
Theorem returned_path_was_fetched
  (depth : nat) (message : Message) (base_dir : Path) (w : World)
  (path : string) :
  fst (download_media depth message base_dir w) = Ok (Some path) ->
  first_outcome w = Fetched
  /\ In (EvFetch (id message) path)
        (new_events w (snd (download_media depth message base_dir w)))
  /\ errors (stats (snd (download_media depth message base_dir w)))
     = errors (stats w).
Proof.
  media_cases depth message base_dir w; intros Hret;
    try discriminate Hret; injection Hret as <-;
    destruct (stats w); cbn; auto.
Qed.

Lemma fetched_video_scenario :
  fst (download_media 0 (media_message 42 video_mp4) sample_dir
                      (initial_world [Fetched]))
  = Ok (Some "downloads/chan_20240101_120000/videos/file_42.mp4")
  /\ In (EvFetch 42 "downloads/chan_20240101_120000/videos/file_42.mp4")
        (new_events (initial_world [Fetched])
           (snd (download_media 0 (media_message 42 video_mp4) sample_dir
                                (initial_world [Fetched])))).
Proof.
  split; [reflexivity|].
  apply (returned_path_was_fetched
           0 (media_message 42 video_mp4) sample_dir (initial_world [Fetched])).
  reflexivity.
Defined.

(** ** More on the ingestion loop *)

Lemma div_succ_100 (k : nat) :
  Nat.div (S k) 100
  = Nat.div k 100 + (if Nat.eqb (Nat.modulo (S k) 100) 0 then 1 else 0).
Proof.
  pose proof (Nat.div_mod_eq k 100) as Hk.
  pose proof (Nat.div_mod_eq (S k) 100) as HS.
  pose proof (Nat.mod_upper_bound k 100 ltac:(discriminate)) as Bk.
  pose proof (Nat.mod_upper_bound (S k) 100 ltac:(discriminate)) as BS.
  destruct (Nat.eqb (Nat.modulo (S k) 100) 0) eqn:E.
  - apply Nat.eqb_eq in E. lia.
  - apply Nat.eqb_neq in E. lia.
Qed.

Lemma counted_fetches_app (a b : list Event) :
  counted_fetches (a ++ b) = counted_fetches a + counted_fetches b.
Proof. unfold counted_fetches. now rewrite filter_app, length_app. Qed.

Lemma progress_lines_app (a b : list Event) :
  progress_lines (a ++ b) = progress_lines a + progress_lines b.
Proof. unfold progress_lines. now rewrite filter_app, length_app. Qed.

Lemma plain_turn_quiet (k : nat) (message : Message) (messages_file : Path) :
  counted_fetches (plain_turn k message messages_file) = 0
  /\ progress_lines (plain_turn k message messages_file)
     = if Nat.eqb (Nat.modulo (S k) 100) 0 then 1 else 0.
Proof.
  unfold plain_turn, progress_events.
  destruct (Nat.eqb (Nat.modulo (S k) 100) 0); split; reflexivity.
Qed.

Section LoopShape.

Variables (depth : nat) (base_dir messages_file : Path).

(** The state a run of the loop ends in, whether it completes or not. *)
Lemma ingest_shape (items : list Message) (w : World) :
  fst (ingest depth items base_dir messages_file w)
  = (if existsb fetchable items
     then Raise (AttributeError "_download_media") else Ok tt)
  /\ exists evs,
       trace (snd (ingest depth items base_dir messages_file w))
       = (trace w ++ evs)%list
       /\ counted_fetches evs = 0
       /\ (existsb fetchable items = false ->
           progress_lines evs
           = Nat.div (messages (stats w)
                      + length (filter user_content (until_fetchable items)))
                     100
             - Nat.div (messages (stats w)) 100)
       /\ messages_data (snd (ingest depth items base_dir messages_file w))
          = (messages_data w
             ++ map (fun m => message_data m None)
                    (filter user_content (until_fetchable items)))%list
       /\ stats (snd (ingest depth items base_dir messages_file w))
          = mkStats (messages (stats w)
                     + length (filter user_content (until_fetchable items))
                     + (if existsb fetchable items then 1 else 0))
                    (photos (stats w)) (videos (stats w))
                    (documents (stats w)) (audio (stats w))
                    (errors (stats w))
       /\ fetch_script (snd (ingest depth items base_dir messages_file w))
          = fetch_script w.
Proof.
  revert w; induction items as [|message items IH]; intros w.
  - split; [reflexivity|]. exists []. cbn. rewrite !app_nil_r, !Nat.add_0_r.
    repeat split; try (intros _; lia). now destruct (stats w).
  - rewrite ingest_cons. cbn [existsb until_fetchable].
    destruct (is_service message) eqn:Hs.
    + assert (Hf : fetchable message = false)
        by (unfold fetchable, user_content; now rewrite Hs).
      assert (Hu : user_content message = false)
        by (unfold user_content; now rewrite Hs).
      rewrite Hf. cbn [orb filter]. rewrite Hu.
      rewrite (process_message_service _ _ _ _ _ Hs). cbn beta iota.
      apply IH.
    + assert (Hu : user_content message = true)
        by (unfold user_content; now rewrite Hs).
      destruct (has_real_media message) eqn:Hm.
      * assert (Hf : fetchable message = true)
          by (unfold fetchable; now rewrite Hu, Hm).
        rewrite Hf. cbn [orb filter].
        rewrite (process_message_media _ _ _ _ _ Hs Hm). cbn beta iota.
        split; [reflexivity|]. exists [EvIncr Messages].
        unfold after. cbn. rewrite !app_nil_r.
        repeat split; try discriminate.
        destruct (stats w); cbn. f_equal. lia.
      * assert (Hf : fetchable message = false)
          by (unfold fetchable; now rewrite Hu, Hm).
        rewrite Hf. cbn [orb filter]. rewrite Hu.
        rewrite (process_message_plain _ _ _ _ _ Hs Hm). cbn beta iota.
        match goal with
        | |- context [ingest _ _ _ _ ?w'] => set (w1 := w')
        end.
        destruct (IH w1) as (Hr & evs & Ht & Hc & Hp & Hd & Hst & Hsc).
        split; [exact Hr|].
        destruct (plain_turn_quiet (messages (stats w)) message messages_file)
          as [Qf Qp].
        exists (plain_turn (messages (stats w)) message messages_file
                ++ evs)%list.
        cbn [map length].
        rewrite Ht, Hd, Hst, Hsc, counted_fetches_app, progress_lines_app,
          Qf, Qp, Hc.
        unfold w1. cbn [trace stats messages_data fetch_script bump messages
                         photos videos documents audio errors].
        repeat rewrite <- app_assoc. cbn [app].
        split; [reflexivity|]. split; [reflexivity|].
        split; [|split; [reflexivity|split; [f_equal; lia|reflexivity]]].
        intros Hnone. rewrite (Hp Hnone).
        unfold w1. cbn [stats bump messages].
        pose proof (div_succ_100 (messages (stats w))) as Hdiv.
        pose proof (Nat.Div0.div_le_mono (S (messages (stats w)))
                      (S (messages (stats w))
                       + length (filter user_content (until_fetchable items)))
                      100 ltac:(lia)) as Hmono.
        replace (messages (stats w)
                 + S (length (filter user_content (until_fetchable items))))
          with (S (messages (stats w))
                + length (filter user_content (until_fetchable items)))
          by lia.
        destruct (Nat.eqb (Nat.modulo (S (messages (stats w))) 100) 0); lia.
Qed.

End LoopShape.

Lemma new_events_of_trace (w w' : World) (evs : list Event) :
  trace w' = (trace w ++ evs)%list -> new_events w w' = evs.
Proof.
  intros H. unfold new_events. rewrite H.
  now rewrite skipn_app, skipn_all, Nat.sub_diag.
Qed.

(** X11 -- the loop completes exactly when no item is a non-service
    message with media other than a link preview; as soon as there is
    one, the loop stops with the [AttributeError] for [_download_media]:
    handing a message to the media download is what the loop cannot do. *)
Theorem loop_completes_iff_nothing_to_fetch
  (depth : nat) (items : list Message) (base_dir messages_file : Path)
  (w : World) :
  fst (ingest depth items base_dir messages_file w)
  = if existsb fetchable items
    then Raise (AttributeError "_download_media")
    else Ok tt.
Proof. apply ingest_shape. Qed.

(** X12 -- where the loop leaves the run: the records appended are those
    of the non-service items before the first one it tries to fetch, in
    order, each with a null media path; [messages] has grown by their
    number, plus one when the loop stopped; no other counter has moved,
    no fetch was issued and the remote side's script is untouched. *)
Theorem loop_final_state
  (depth : nat) (items : list Message) (base_dir messages_file : Path)
  (w : World) :
  messages_data (snd (ingest depth items base_dir messages_file w))
  = (messages_data w
     ++ map (fun m => message_data m None)
            (filter user_content (until_fetchable items)))%list
  /\ stats (snd (ingest depth items base_dir messages_file w))
     = mkStats (messages (stats w)
                + length (filter user_content (until_fetchable items))
                + (if existsb fetchable items then 1 else 0))
               (photos (stats w)) (videos (stats w))
               (documents (stats w)) (audio (stats w)) (errors (stats w))
  /\ fetch_script (snd (ingest depth items base_dir messages_file w))
     = fetch_script w
  /\ counted_fetches
       (new_events w (snd (ingest depth items base_dir messages_file w))) = 0.
Proof.
  destruct (ingest_shape depth base_dir messages_file items w)
    as (_ & evs & Ht & Hf & _ & Hd & Hst & Hsc).
  rewrite (new_events_of_trace _ _ _ Ht). now repeat split.
Qed.

(** X13 -- in a run of the loop that completes, one progress line is
    logged each time the [messages] counter reaches a multiple of 100:
    their number is the number of multiples of 100 passed on the way. *)
Theorem progress_every_hundredth_message
  (depth : nat) (items : list Message) (base_dir messages_file : Path)
  (w : World) :
  fst (ingest depth items base_dir messages_file w) = Ok tt ->
  progress_lines
    (new_events w (snd (ingest depth items base_dir messages_file w)))
  = Nat.div (messages
               (stats (snd (ingest depth items base_dir messages_file w))))
            100
    - Nat.div (messages (stats w)) 100.
Proof.
  destruct (ingest_shape depth base_dir messages_file items w)
    as (Hr & evs & Ht & _ & Hp & _ & Hst & _).
  rewrite Hr, Hst, (new_events_of_trace _ _ _ Ht). cbn [messages].
  destruct (existsb fetchable items); [discriminate|]. intros _.
  rewrite Nat.add_0_r. now apply Hp.
Qed.

Lemma hundredth_message_scenario :
  progress_lines
    (new_events (mkWorld (mkStats 99 0 0 0 0 0) [] [] [])
       (snd (ingest 0 three_texts sample_dir sample_file
                    (mkWorld (mkStats 99 0 0 0 0 0) [] [] []))))
  = 1.
Proof.
  rewrite (progress_every_hundredth_message
             0 three_texts sample_dir sample_file
             (mkWorld (mkStats 99 0 0 0 0 0) [] [] []) eq_refl).
  reflexivity.
Defined.

(** ** More on the whole run *)

Ltac run_cases T channel_username :=
  rewrite ?download_channel_eq;
  destruct (connect_outcome T) as [?e|] eqn:?;
  [|destruct (get_entity T (clean_username channel_username))
      as [?channel|?e] eqn:?];
  cbn [fst snd]; rewrite ?new_events_after;
  cbn [after stats messages_data fetch_script trace].

(** X14 -- whatever happens in a run, its first effect is the connection
    and its last the disconnection, and neither happens in between. *)
Theorem run_connects_first_and_disconnects_last
  (depth : nat) (T : Transport) (channel_username : string)
  (limit : option nat) (w : World) :
  exists middle,
    new_events w (snd (download_channel depth T channel_username limit w))
    = (EvConnect :: middle ++ [EvDisconnect])%list
    /\ ~ In EvConnect middle
    /\ ~ In EvDisconnect middle.
Proof.
  run_cases T channel_username.
  - exists [EvLog Error (LogChannelError e)].
    repeat split; intros [H|[]]; discriminate.
  - eexists [_; _; _; _]. split; [reflexivity|].
    split; intros [H|[H|[H|[H|[]]]]]; discriminate.
  - eexists [_; _; _; _]. split; [reflexivity|].
    split; intros [H|[H|[H|[H|[]]]]]; discriminate.
Qed.

(** X15 -- no run counts, records, fetches or writes anything: the
    counters, the record list and the remote side's script are as before,
    and none of its effects is an increment, a fetch, a directory, a file
    write, a record or the structured log.  Accordingly the outcome does
    not depend on the message limit. *)
Theorem run_leaves_no_output
  (depth : nat) (T : Transport) (channel_username : string)
  (limit : option nat) (w : World) :
  stats (snd (download_channel depth T channel_username limit w)) = stats w
  /\ messages_data (snd (download_channel depth T channel_username limit w))
     = messages_data w
  /\ fetch_script (snd (download_channel depth T channel_username limit w))
     = fetch_script w
  /\ existsb is_output
       (new_events w
          (snd (download_channel depth T channel_username limit w))) = false
  /\ forall depth' limit',
       download_channel depth' T channel_username limit' w
       = download_channel depth T channel_username limit w.
Proof.
  split; [|split; [|split; [|split]]];
    try (intros depth' limit'; now rewrite !download_channel_eq);
    run_cases T channel_username; reflexivity.
Qed.

(** X17 -- the identifier is looked up without its leading at-sign: one
    at-sign is removed, never more, an identifier without one is taken
    as it is, and this cleaned name is the only one a run ever asks the
    remote side to resolve. *)
Theorem lookup_uses_the_cleaned_username (channel_username : string) :
  clean_username (String "@" channel_username) = channel_username
  /\ (clean_username channel_username = channel_username
      \/ channel_username = String "@" (clean_username channel_username))
  /\ forall depth T limit w name,
       In (EvGetEntity name)
          (new_events w
             (snd (download_channel depth T channel_username limit w))) ->
       name = clean_username channel_username.
Proof.
  split; [|split].
  - unfold clean_username, PyStr.startswith. cbn [String.prefix].
    destruct (ascii_dec "@" "@") as [_|Hne]; [|now contradiction Hne].
    destruct channel_username; reflexivity.
  - unfold clean_username, PyStr.startswith.
    destruct channel_username as [|c rest]; [now left|].
    cbn [String.prefix]. destruct (ascii_dec "@" c) as [<-|Hne].
    + destruct rest; right; reflexivity.
    + now left.
  - intros depth T limit w name.
    run_cases T channel_username; intros Hin.
    + destruct Hin as [H|[H|[H|[]]]]; discriminate.
    + destruct Hin as [H|[H|[H|[H|[H|[H|[]]]]]]]; try discriminate.
      now injection H.
    + destruct Hin as [H|[H|[H|[H|[H|[H|[]]]]]]]; try discriminate.
      now injection H.
Qed.

Lemma double_at_sign_scenario :
  clean_username "@@chan" = "@chan"
  /\ forall name,
       In (EvGetEntity name)
          (new_events (initial_world [])
             (snd (download_channel 0 (sample_transport []) "@@chan" None
                                    (initial_world [])))) ->
       name = "@chan".
Proof.
  destruct (lookup_uses_the_cleaned_username "@@chan") as (_ & _ & Hlookup).
  split; [reflexivity|].
  intros name Hin.
  exact (Hlookup 0 (sample_transport []) None (initial_world []) name Hin).
Defined.

(** X18 -- [create_download_directory] creates nothing: for every channel
    name it raises the [AttributeError] for [_sanitize_filename] before
    the first directory, and leaves the world as it found it. *)
Theorem create_download_directory_creates_nothing
  (T : Transport) (channel_name : string) (w : World) :
  create_download_directory T channel_name w
  = (Raise (AttributeError "_sanitize_filename"), w).
Proof. reflexivity. Qed.

(** ** [main] *)

Lemma nonempty_spec (s : string) : nonempty s = true <-> s <> "".
Proof.
  unfold nonempty. destruct (String.eqb_spec s ""); split;
    intros H; try discriminate; try reflexivity; now try contradiction.
Qed.

Lemma fields_spec (a : Answers) :
  forallb nonempty [ans_api_id a; ans_api_hash a; ans_phone a; ans_channel a]
  = true
  <-> ans_api_id a <> "" /\ ans_api_hash a <> ""
      /\ ans_phone a <> "" /\ ans_channel a <> "".
Proof.
  cbn [forallb]. rewrite !andb_true_iff, !nonempty_spec. tauto.
Qed.

(** X19 -- a run is started exactly when the four required answers are
    non-empty, the API id reads as an integer and the limit is either
    left empty (no limit) or reads as an integer; the run then gets the
    hash, phone and channel as typed. *)
Theorem a_run_starts_exactly_on_complete_input
  (int : string -> option Z) (a : Answers)
  (api_id : Z) (api_hash phone channel : string) (limit : option Z) :
  read_inputs int a = Start api_id api_hash phone channel limit
  <-> (ans_api_id a <> "" /\ ans_api_hash a <> ""
       /\ ans_phone a <> "" /\ ans_channel a <> "")
      /\ int (ans_api_id a) = Some api_id
      /\ api_hash = ans_api_hash a
      /\ phone = ans_phone a
      /\ channel = ans_channel a
      /\ match limit with
         | None => ans_limit a = ""
         | Some n => ans_limit a <> "" /\ int (ans_limit a) = Some n
         end.
Proof.
  rewrite <- fields_spec. unfold read_inputs.
  destruct (nonempty (ans_limit a)) eqn:Hl.
  - apply nonempty_spec in Hl.
    destruct (int (ans_limit a)) as [n|]; cbn [option_map].
    + destruct (forallb nonempty _).
      * destruct (int (ans_api_id a)) as [i|].
        -- split.
           ++ intros H. injection H as <- <- <- <- <-. now repeat split.
           ++ intros (_ & Hi & -> & -> & -> & Hlim).
              destruct limit as [m|]; [|contradiction].
              destruct Hlim as [_ Hm]. congruence.
        -- split; [discriminate|]. intros (_ & Hi & _). discriminate.
      * split; [discriminate|]. intros (Hf & _). discriminate.
    + split; [discriminate|]. intros (_ & _ & _ & _ & _ & Hlim).
      destruct limit as [m|]; [destruct Hlim; discriminate | contradiction].
  - assert (He : ans_limit a = "").
    { unfold nonempty in Hl. destruct (String.eqb_spec (ans_limit a) "");
        [assumption | discriminate]. }
    destruct (forallb nonempty _).
    + destruct (int (ans_api_id a)) as [i|].
      * split.
        -- intros H. injection H as <- <- <- <- <-. now repeat split.
        -- intros (_ & Hi & -> & -> & -> & Hlim).
           destruct limit as [m|]; [destruct Hlim; contradiction|].
           congruence.
      * split; [discriminate|]. intros (_ & Hi & _). discriminate.
    + split; [discriminate|]. intros (Hf & _). discriminate.
Qed.

(** X20 -- the checks run in the order limit, required fields, API id: a
    limit that does not read as an integer is reported as invalid input
    even when required answers are missing; with the limit in order, a
    missing answer is reported as such even when the API id would not
    read as an integer; and with all answers present an unreadable API id
    is invalid input. *)
Theorem input_checks_run_in_order (int : string -> option Z) (a : Answers) :
  (ans_limit a <> "" -> int (ans_limit a) = None ->
   read_inputs int a = Rejected PrintInvalidInput)
  /\ ((ans_limit a = "" \/ exists n, int (ans_limit a) = Some n) ->
      (ans_api_id a = "" \/ ans_api_hash a = ""
       \/ ans_phone a = "" \/ ans_channel a = "") ->
      read_inputs int a = Rejected PrintFieldsRequired)
  /\ ((ans_limit a = "" \/ exists n, int (ans_limit a) = Some n) ->
      (ans_api_id a <> "" /\ ans_api_hash a <> ""
       /\ ans_phone a <> "" /\ ans_channel a <> "") ->
      int (ans_api_id a) = None ->
      read_inputs int a = Rejected PrintInvalidInput).
Proof.
  unfold read_inputs. split; [|split].
  - intros Hl Hint. apply nonempty_spec in Hl. now rewrite Hl, Hint.
  - intros Hl Hmiss.
    assert (Hf : forallb nonempty [ans_api_id a; ans_api_hash a;
                                   ans_phone a; ans_channel a] = false).
    { destruct (forallb nonempty _) eqn:E; [|reflexivity].
      apply fields_spec in E. tauto. }
    rewrite Hf. destruct Hl as [Hl|(n & Hl)].
    + rewrite Hl. reflexivity.
    + rewrite Hl. destruct (nonempty (ans_limit a)); reflexivity.
  - intros Hl Hall Hint. apply fields_spec in Hall. rewrite Hall, Hint.
    destruct Hl as [Hl|(n & Hl)].
    + rewrite Hl. reflexivity.
    + rewrite Hl. destruct (nonempty (ans_limit a)); reflexivity.
Qed.

Lemma bad_limit_scenario :
  read_inputs decimal (mkAnswers "" "" "" "" "ten")
  = Rejected PrintInvalidInput
  /\ read_inputs decimal (mkAnswers "id" "" "+1" "@chan" "10")
     = Rejected PrintFieldsRequired
  /\ read_inputs decimal (mkAnswers "id" "hash" "+1" "@chan" "")
     = Rejected PrintInvalidInput.
Proof.
  split; [|split].
  - destruct (input_checks_run_in_order
                decimal (mkAnswers "" "" "" "" "ten")) as (Hlimit & _ & _).
    apply Hlimit; [discriminate | reflexivity].
  - destruct (input_checks_run_in_order
                decimal (mkAnswers "id" "" "+1" "@chan" "10"))
      as (_ & Hfields & _).
    apply Hfields.
    + right. exists 10%Z. reflexivity.
    + right. left. reflexivity.
  - destruct (input_checks_run_in_order
                decimal (mkAnswers "id" "hash" "+1" "@chan" ""))
      as (_ & _ & Hid).
    apply Hid.
    + left. reflexivity.
    + repeat split; discriminate.
    + reflexivity.
Defined.

(** X21 -- whatever is typed, [main] prints the banner and at most one
    more line, and leaves nothing behind: either no run is started, or the
    run ends with all counters at zero, no record, the remote side's
    script untouched and no increment, fetch, directory, file or
    structured log among its effects. *)
Theorem main_leaves_no_output
  (int : string -> option Z)
  (client_for : Z -> string -> string -> Transport)
  (depth : nat) (script : list FetchOutcome) (a : Answers) :
  (exists rest,
      fst (main int client_for depth script a) = PrintBanner :: rest
      /\ length rest <= 1)
  /\ match snd (main int client_for depth script a) with
     | None => exists c, read_inputs int a = Rejected c
     | Some w =>
         stats w = initial_stats
         /\ messages_data w = []
         /\ fetch_script w = script
         /\ existsb is_output (trace w) = false
     end.
Proof.
  unfold main.
  destruct (read_inputs int a) as [api_id api_hash phone channel limit|c].
  - rewrite download_channel_eq.
    destruct (connect_outcome (client_for api_id api_hash phone)) as [e|];
      [|destruct (get_entity (client_for api_id api_hash phone)
                             (clean_username channel)) as [resolved|e]];
      cbn [fst snd];
      (split; [eexists; split; [reflexivity | cbn; lia]|]);
      repeat split.
  - cbn [fst snd]. split; [eexists; split; [reflexivity | cbn; lia]|].
    now exists c.
Qed.



(** ** The login dialogue *)

Ltac login_cases client code password :=
  unfold connect_dialogue;
  destruct (connect_fails client) as [?e|];
  [|destruct (is_user_authorized client);
    [|destruct (send_code_fails client) as [?e|];
      [|destruct (sign_in_code client code) as [| |?e];
        [|destruct (sign_in_password client password) as [?e|]|]]]];
  cbn [fst snd app].

(** X23 -- the dialogue starts with the connection, and the line that
    reports a successful connection is written exactly when no exception
    leaves [connect]; it is then the last thing that happens. *)
Theorem login_success_is_logged_last
  (client : AuthClient) (phone code password : string) :
  hd LoginLogConnected (fst (connect_dialogue client phone code password))
  = LoginConnect
  /\ (snd (connect_dialogue client phone code password) = None
      <-> In LoginLogConnected
             (fst (connect_dialogue client phone code password)))
  /\ (snd (connect_dialogue client phone code password) = None
      <-> last (fst (connect_dialogue client phone code password))
               LoginConnect
          = LoginLogConnected).
Proof.
  login_cases client code password;
    (split; [reflexivity|]); split; split;
    try discriminate; try reflexivity; cbn; intuition discriminate.
Qed.

(** X24 -- the user is asked for the code exactly when the client
    connects, is not yet authorized and the code request goes through,
    and for the password exactly when, in addition, signing in with the
    code answers that a password is needed; an authorized session is
    asked nothing, and any other failure of the code sign-in leaves
    [connect] without a password prompt. *)
Theorem prompts_only_on_demand
  (client : AuthClient) (phone code password : string) :
  (In LoginAskCode (fst (connect_dialogue client phone code password))
   <-> connect_fails client = None
       /\ is_user_authorized client = false
       /\ send_code_fails client = None)
  /\ (In LoginAskPassword (fst (connect_dialogue client phone code password))
      <-> connect_fails client = None
          /\ is_user_authorized client = false
          /\ send_code_fails client = None
          /\ sign_in_code client code = PasswordNeeded)
  /\ (forall e,
         connect_fails client = None ->
         is_user_authorized client = false ->
         send_code_fails client = None ->
         sign_in_code client code = SignInFailed e ->
         snd (connect_dialogue client phone code password) = Some e).
Proof.
  unfold connect_dialogue.
  destruct (connect_fails client) as [e0|];
    [|destruct (is_user_authorized client);
      [|destruct (send_code_fails client) as [e1|];
        [|destruct (sign_in_code client code) as [| |e2];
          [|destruct (sign_in_password client password) as [e3|]|]]]];
    cbn;
    (split; [|split]);
    try (intros e H1 H2 H3 H4; congruence);
    (split; [intros H | intros H; decompose [and] H]);
    try discriminate; try congruence;
    try (decompose [or] H; discriminate || contradiction);
    try (now repeat split);
    clear; repeat ((left; reflexivity) || right).
Qed.

Lemma password_prompt_scenario :
  In LoginAskPassword
     (fst (connect_dialogue
             (mkAuthClient None false None (fun _ => PasswordNeeded)
                           (fun _ => None))
             "+15550100" "12345" "secret")).
Proof.
  apply (prompts_only_on_demand
           (mkAuthClient None false None (fun _ => PasswordNeeded)
                         (fun _ => None))
           "+15550100" "12345" "secret").
  repeat split.
Defined.

(** ** The two handlers of [download_media], in general *)

(** X25 -- a fetch answered by a rate limit is never retried, for any
    message and however deep calls may nest: the call waits the seconds
    it was told, then the [AttributeError] for [_download_media] leaves
    it; the fetch was issued once and the remote side's next answer is
    left unconsumed. *)
Theorem rate_limit_is_never_retried
  (depth : nat) (message : Message) (base_dir : Path) (w : World)
  (seconds : Z) (target : string) :
  first_outcome w = RateLimited seconds ->
  In (EvFetch (id message) target)
     (new_events w (snd (download_media depth message base_dir w))) ->
  fst (download_media depth message base_dir w)
  = Raise (AttributeError "_download_media")
  /\ In (EvSleep seconds)
        (new_events w (snd (download_media depth message base_dir w)))
  /\ counted_fetches
       (new_events w (snd (download_media depth message base_dir w))) = 1
  /\ fetch_script (snd (download_media depth message base_dir w))
     = tl (fetch_script w).
Proof.
  intros Hout Hin.
  destruct (rate_limited_fetch_is_never_retried
              depth message base_dir w seconds target Hout Hin)
    as (Hr & Hs & Hc).
  split; [exact Hr|]. split; [exact Hs|]. split; [exact Hc|].
  clear Hr Hs Hc. revert Hin.
  media_cases depth message base_dir w; try discriminate;
    cbn [In]; intros Hin;
    try (decompose [or] Hin; discriminate || contradiction);
    reflexivity.
Qed.

Lemma rate_limited_photo_is_not_retried :
  fst (download_media 3 (media_message 7 MessageMediaPhoto) sample_dir
                      (initial_world [RateLimited 5; Fetched]))
  = Raise (AttributeError "_download_media")
  /\ fetch_script
       (snd (download_media 3 (media_message 7 MessageMediaPhoto)
                            sample_dir
                            (initial_world [RateLimited 5; Fetched])))
     = [Fetched].
Proof.
  destruct (rate_limit_is_never_retried
              3 (media_message 7 MessageMediaPhoto) sample_dir
              (initial_world [RateLimited 5; Fetched]) 5
              "downloads/chan_20240101_120000/photos/photo_7.jpg"
              eq_refl) as (Hr & _ & _ & Hscript).
  - left. reflexivity.
  - split; [exact Hr | exact Hscript].
Defined.

(** X26 -- a fetch that fails for a reason other than a rate limit is
    absorbed: no exception leaves the call, no path is returned, the
    error is logged with the message id and the cause and counted exactly
    once, and the fetch is not repeated. *)
Theorem other_failure_is_absorbed
  (depth : nat) (message : Message) (base_dir : Path) (w : World)
  (what target : string) :
  first_outcome w = Failed what ->
  In (EvFetch (id message) target)
     (new_events w (snd (download_media depth message base_dir w))) ->
  fst (download_media depth message base_dir w) = Ok None
  /\ errors (stats (snd (download_media depth message base_dir w)))
     = S (errors (stats w))
  /\ counted_fetches
       (new_events w (snd (download_media depth message base_dir w))) = 1
  /\ In (EvLog Error (LogMediaError (id message) (OtherError what)))
        (new_events w (snd (download_media depth message base_dir w))).
Proof.
  intros Hout Hin.
  destruct (failed_fetch_is_counted_once
              depth message base_dir w what target Hout Hin)
    as (Hr & He & Hc).
  split; [exact Hr|]. split; [exact He|]. split; [exact Hc|].
  clear Hr He Hc. revert Hin.
  media_cases depth message base_dir w; try discriminate;
    cbn [In]; intros Hin;
    try (decompose [or] Hin; discriminate || contradiction);
    match goal with
    | H : Failed _ = Failed _ |- _ => injection H as <-
    end; auto 6.
Qed.

Lemma failed_photo_scenario :
  fst (download_media 0 (media_message 7 MessageMediaPhoto) sample_dir
                      (initial_world [Failed "disk full"])) = Ok None
  /\ errors (stats (snd (download_media 0 (media_message 7 MessageMediaPhoto)
                                        sample_dir
                                        (initial_world [Failed "disk full"]))))
     = 1.
Proof.
  destruct (other_failure_is_absorbed
              0 (media_message 7 MessageMediaPhoto) sample_dir
              (initial_world [Failed "disk full"]) "disk full"
              "downloads/chan_20240101_120000/photos/photo_7.jpg"
              eq_refl) as (Hr & He & _).
  - left. reflexivity.
  - split; [exact Hr | exact He].
Defined.

(** ** Where a returned path points *)

Lemma target_path_parts (base_dir : Path) (k : StatKey) (filename : string) :
  PyStr.has_char "/" filename = false ->
  keep_part filename = true ->
  base_dir // subdir_name k // filename
  = mkPath (root base_dir) (parts base_dir ++ [subdir_name k; filename]).
Proof.
  intros Hs Hk.
  destruct (subdir_name_component k base_dir) as [-> _].
  rewrite (joinpath_single _ _ Hs Hk). cbn [root parts].
  now rewrite <- app_assoc.
Qed.

Lemma named_path_lies_under (base_dir : Path) (dir filename : string) :
  String.eqb ".." dir = false ->
  String.eqb ".." filename = false ->
  lies_under base_dir
    (mkPath (root base_dir) (parts base_dir ++ [dir; filename])) = true
  /\ lies_under (mkPath (root base_dir) (parts base_dir ++ [dir]))
       (mkPath (root base_dir) (parts base_dir ++ [dir; filename])) = true.
Proof.
  intros Hd Hf. unfold lies_under. cbn [root parts].
  rewrite Bool.eqb_reflx, strip_prefix_app.
  change (parts base_dir ++ [dir; filename])%list
    with (parts base_dir ++ [dir] ++ [filename])%list.
  rewrite app_assoc, strip_prefix_app.
  cbn [app andb existsb orb]. now rewrite Hd, Hf.
Qed.

Lemma document_directory (mime : string) :
  subdir_name (document_category mime)
  = if PyStr.contains "video" mime then "videos"
    else if PyStr.contains "audio" mime || PyStr.contains "ogg" mime
         then "audio"
         else "documents".
Proof.
  unfold document_category.
  destruct (PyStr.contains "video" mime); [reflexivity|].
  destruct (PyStr.contains "audio" mime || PyStr.contains "ogg" mime);
    reflexivity.
Qed.

(** X27 -- every path [download_media] returns is the given directory
    followed by exactly two components: the directory named for the
    media ([photos] for a photo; for a document [videos] when video
    occurs in the mime-type, else [audio] when audio or ogg occurs, else
    [documents]) and one filename without separator ([photo_<id>.jpg],
    or [file_<id>.<ext>] for a document, which then declares no
    filename).  It lies under the given directory and under that
    subdirectory. *)
Theorem returned_path_is_in_the_named_subdirectory
  (depth : nat) (message : Message) (base_dir : Path) (w : World)
  (path : string) :
  fst (download_media depth message base_dir w) = Ok (Some path) ->
  exists dir filename,
    match media message with
    | Some MessageMediaPhoto =>
        dir = "photos"
        /\ filename = "photo_" ++ PyStr.of_int (id message) ++ ".jpg"
    | Some (MessageMediaDocument doc) =>
        declares_filename (attributes doc) = false
        /\ dir = (if PyStr.contains "video" (mime_of doc) then "videos"
                  else if PyStr.contains "audio" (mime_of doc)
                          || PyStr.contains "ogg" (mime_of doc)
                       then "audio"
                       else "documents")
        /\ exists ext,
             filename = "file_" ++ PyStr.of_int (id message) ++ "." ++ ext
             /\ PyStr.has_char "/" ext = false
    | _ => False
    end
    /\ path
       = path_str (mkPath (root base_dir)
                          (parts base_dir ++ [dir; filename]))
    /\ PyStr.has_char "/" filename = false
    /\ lies_under base_dir
         (mkPath (root base_dir) (parts base_dir ++ [dir; filename])) = true
    /\ lies_under (mkPath (root base_dir) (parts base_dir ++ [dir]))
         (mkPath (root base_dir) (parts base_dir ++ [dir; filename])) = true.
Proof.
  intros Hret.
  destruct (media message) as [[|doc| |]|] eqn:Hm.
  - rewrite (download_media_photo depth message base_dir w Hm) in Hret.
    destruct (first_outcome w); cbn [fst] in Hret; try discriminate.
    injection Hret as <-.
    exists (subdir_name Photos), (photo_filename (id message)).
    pose proof (photo_filename_no_slash (id message)) as Hs.
    split; [now split|]. split.
    + rewrite <- (target_path_parts base_dir Photos _ Hs eq_refl).
      reflexivity.
    + split; [exact Hs|]. now apply named_path_lies_under.
  - rewrite (download_media_document depth message base_dir w doc Hm) in Hret.
    destruct (declares_filename (attributes doc));
      [cbn [fst] in Hret; discriminate|].
    destruct (first_outcome w); cbn [fst] in Hret; try discriminate.
    injection Hret as <-.
    destruct (synthesized_ext (id message) (mime_of doc))
      as (ext & Hname & Hext & _).
    pose proof (synthesized_filename_no_slash (id message) (mime_of doc))
      as Hs.
    assert (Hk : keep_part (synthesized_filename (id message) (mime_of doc))
                 = true) by reflexivity.
    exists (subdir_name (document_category (mime_of doc))),
           (synthesized_filename (id message) (mime_of doc)).
    split; [|split; [|split]].
    + split; [reflexivity|]. split; [apply document_directory|].
      now exists ext.
    + now rewrite <- (target_path_parts base_dir _ _ Hs Hk).
    + exact Hs.
    + apply named_path_lies_under; [|reflexivity].
      now destruct (document_category (mime_of doc)).
  - rewrite download_media_nothing in Hret
      by (left; unfold has_real_media; now rewrite Hm).
    discriminate.
  - rewrite download_media_nothing in Hret by now right.
    discriminate.
  - rewrite download_media_nothing in Hret
      by (left; unfold has_real_media; now rewrite Hm).
    discriminate.
Qed.

Lemma pdf_and_voice_note_scenario :
  (fst (download_media 0 (media_message 9 plain_pdf) sample_dir
                       (initial_world []))
   = Ok (Some "downloads/chan_20240101_120000/documents/file_9.pdf")
   /\ fst (download_media 0 (media_message 10 voice_note) sample_dir
                          (initial_world []))
      = Ok (Some "downloads/chan_20240101_120000/audio/file_10.ogg"))
  /\ (exists filename,
         "downloads/chan_20240101_120000/documents/file_9.pdf"
         = path_str (mkPath false ["downloads"; "chan_20240101_120000";
                                   "documents"; filename]))
  /\ (exists filename,
         "downloads/chan_20240101_120000/audio/file_10.ogg"
         = path_str (mkPath false ["downloads"; "chan_20240101_120000";
                                   "audio"; filename])).
Proof.
  split; [split; reflexivity|]. split.
  - destruct (returned_path_is_in_the_named_subdirectory
                0 (media_message 9 plain_pdf) sample_dir (initial_world [])
                "downloads/chan_20240101_120000/documents/file_9.pdf"
                eq_refl)
      as (dir & filename & (_ & Hdir & _) & Hpath & _).
    exists filename. rewrite Hpath, Hdir. reflexivity.
  - destruct (returned_path_is_in_the_named_subdirectory
                0 (media_message 10 voice_note) sample_dir (initial_world [])
                "downloads/chan_20240101_120000/audio/file_10.ogg"
                eq_refl)
      as (dir & filename & (_ & Hdir & _) & Hpath & _).
    exists filename. rewrite Hpath, Hdir. reflexivity.
Defined.
